(** * Access control of the storefront: row-level security and client glue

    The development has two halves, mirroring the repository:

    - [Rls] embeds [supabase/rls.sql]: the [profiles] table with its
      constraints, the provisioning trigger [handle_new_user], the
      privileged helper [is_admin], and every [create policy] statement,
      together with the way PostgreSQL combines permissive policies.
    - [Client] embeds the pure and state-passing parts of [src/App.jsx]:
      [ensureUserProfile], [getUserRole], [getUserRoleWithTimeout],
      [normalizeOrder] and [removeCategory].

    All definitions come first; the theorems follow. *)

From Stdlib Require Import ZArith Ascii String Floats.SpecFloat.
From stdpp Require Import base option list strings gmap sorting.

Set Default Proof Using "Type".
Local Open Scope string_scope.

(* ===================================================================== *)
(** * Part I: supabase/rls.sql                                            *)
(* ===================================================================== *)

Module Rls.

(** ** SQL values *)

(** A [uuid] is kept as its text form. *)
Definition uuid := string.

(** SQL booleans are three-valued: [None] is NULL. *)
Definition sqlbool := option bool.

Definition sql_eq (a b : option string) : sqlbool :=
  match a, b with
  | Some x, Some y => Some (String.eqb x y)
  | _, _ => None
  end.

Definition sql_and (a b : sqlbool) : sqlbool :=
  match a, b with
  | Some false, _ | _, Some false => Some false
  | Some true, Some true => Some true
  | _, _ => None
  end.

Definition sql_or (a b : sqlbool) : sqlbool :=
  match a, b with
  | Some true, _ | _, Some true => Some true
  | Some false, Some false => Some false
  | _, _ => None
  end.

(** A row passes a policy expression, or a WHERE clause, only when the
    expression is TRUE; both FALSE and NULL reject it. *)
Definition sql_istrue (a : sqlbool) : bool :=
  match a with Some true => true | _ => false end.

Inductive sql_result (A : Type) :=
  | Ok (a : A)
  | Error (sqlstate : string).
Arguments Ok {A} a.
Arguments Error {A} sqlstate.

Definition unique_violation : string := "23505".
Definition check_violation : string := "23514".
Definition insufficient_privilege : string := "42501".

(** ** Tables *)

(** [public.profiles]: [id] is the primary key, [email] is nullable and
    unique, [role] is NOT NULL with a CHECK constraint. *)
Record profile := mkProfile {
  profile_id : uuid;
  profile_email : option string;
  profile_role : string
}.

(** [public.products] is created elsewhere; its policies read no column. *)
Record product := mkProduct {
  product_id : string;
  product_name : string;
  product_category : string;
  product_price : Z
}.

Record category := mkCategory {
  category_id : uuid;
  category_name : string
}.

(** [public.orders]; [total] is kept in hundredths. *)
Record order := mkOrder {
  order_id : uuid;
  order_user_id : uuid;
  order_status : string;
  order_total : Z;
  order_items_count : Z
}.

(** A row of [storage.objects]; [bucket_id] is nullable there. *)
Record storage_object := mkObject {
  object_bucket_id : option string;
  object_name : string
}.

(** A row of [auth.users], as far as the trigger reads it. *)
Record auth_user := mkAuthUser {
  user_id : uuid;
  user_email : option string
}.

(** The persisted state that policy evaluation reads.  The script enables
    row-level security on the four [public] tables itself; whether it is
    enabled on [storage.objects] is a property of the hosting platform and
    is therefore part of the state. *)
Record database := mkDb {
  profiles : list profile;
  storage_objects_rls : bool
}.

Inductive table :=
  | public_profiles
  | public_products
  | public_categories
  | public_orders
  | storage_objects.

Definition row_of (t : table) : Type :=
  match t with
  | public_profiles => profile
  | public_products => product
  | public_categories => category
  | public_orders => order
  | storage_objects => storage_object
  end.

(** ** Table constraints of [public.profiles] *)

(** [check (role in ('user', 'admin'))] *)
Definition role_check (role : string) : bool :=
  String.eqb role "user" || String.eqb role "admin".

Definition has_id (i : uuid) (p : profile) : bool :=
  String.eqb (profile_id p) i.

(** The rows a primary-key lookup on [id] returns. *)
Definition rows_with_id (i : uuid) (ps : list profile) : list profile :=
  List.filter (has_id i) ps.

Definition profile_count (i : uuid) (db : database) : nat :=
  length (rows_with_id i (profiles db)).

(** [select role from profiles where id = i] *)
Definition role_of (db : database) (i : uuid) : option string :=
  profile_role <$> head (rows_with_id i (profiles db)).

(** [email text unique]: NULLs never collide. *)
Definition email_taken (e : option string) (ps : list profile) : bool :=
  existsb (fun p => sql_istrue (sql_eq (profile_email p) e)) ps.

(** The primary key and the column constraints, as an invariant of the
    stored table. *)
Definition profiles_wf (db : database) : Prop :=
  NoDup (profile_id <$> profiles db) ∧
  Forall (fun p => role_check (profile_role p) = true) (profiles db).

(** ** The provisioning trigger

    [insert into public.profiles (id, email, role)
       values (new.id, new.email, 'user') on conflict (id) do nothing]

    The function is [security definer], so no policy applies to it.  The
    CHECK constraint is evaluated first, then the arbiter index on [id];
    only when there is no conflict on [id] is the row inserted, and the
    unique index on [email] may then still reject it. *)
Definition insert_on_conflict_id_do_nothing
    (row : profile) (db : database) : sql_result database :=
  if negb (role_check (profile_role row)) then Error check_violation
  else if existsb (has_id (profile_id row)) (profiles db) then Ok db
  else if email_taken (profile_email row) (profiles db) then Error unique_violation
  else Ok (mkDb (profiles db ++ [row]) (storage_objects_rls db)).

Definition handle_new_user (db : database) (new : auth_user) : sql_result database :=
  insert_on_conflict_id_do_nothing (mkProfile (user_id new) (user_email new) "user") db.

(** ** Callers *)

Inductive db_role := anon | authenticated.

(** A request reaches the database either without a session or with the
    JWT of a signed-in identity. *)
Inductive caller :=
  | Anonymous
  | Authenticated (uid : uuid).

Definition caller_role (c : caller) : db_role :=
  match c with Anonymous => anon | Authenticated _ => authenticated end.

(** [auth.uid()] is NULL without a session. *)
Definition auth_uid (c : caller) : option uuid :=
  match c with Anonymous => None | Authenticated u => Some u end.

(** ** [public.is_admin()]

    [select exists (select 1 from public.profiles p
                    where p.id = auth.uid() and p.role = 'admin')]

    [security definer]: it scans the whole table, whatever the caller may
    read. *)
Definition admin_row_of (c : caller) (p : profile) : bool :=
  sql_istrue (sql_and (sql_eq (Some (profile_id p)) (auth_uid c))
                      (sql_eq (Some (profile_role p)) (Some "admin"))).

Definition is_admin (db : database) (c : caller) : bool :=
  existsb (admin_row_of c) (profiles db).

(** ** Policies *)

Inductive command := SELECT | INSERT | UPDATE | DELETE.

Inductive grantee := to_authenticated | to_public.

Definition expr (R : Type) : Type := database → caller → R → sqlbool.

Record policy (R : Type) := mkPolicy {
  pol_name : string;
  pol_for : command;
  pol_to : grantee;
  pol_using : option (expr R);
  pol_with_check : option (expr R)
}.
Arguments mkPolicy {R}.
Arguments pol_name {R}.
Arguments pol_for {R}.
Arguments pol_to {R}.
Arguments pol_using {R}.
Arguments pol_with_check {R}.

Definition command_eqb (a b : command) : bool :=
  match a, b with
  | SELECT, SELECT | INSERT, INSERT | UPDATE, UPDATE | DELETE, DELETE => true
  | _, _ => false
  end.

Definition granted_to (g : grantee) (r : db_role) : bool :=
  match g, r with
  | to_public, _ => true
  | to_authenticated, authenticated => true
  | to_authenticated, anon => false
  end.

Definition applies {R} (p : policy R) (c : caller) (cmd : command) : bool :=
  command_eqb (pol_for p) cmd && granted_to (pol_to p) (caller_role c).

(** The USING expression of one policy on an existing row.  A policy
    without one contributes nothing. *)
Definition using_true {R} (db : database) (c : caller) (r : R) (p : policy R) : bool :=
  match pol_using p with
  | Some e => sql_istrue (e db c r)
  | None => false
  end.

(** The WITH CHECK expression of one policy on a proposed row; the USING
    expression stands in when WITH CHECK is omitted. *)
Definition check_true {R} (db : database) (c : caller) (r : R) (p : policy R) : bool :=
  match pol_with_check p, pol_using p with
  | Some e, _ => sql_istrue (e db c r)
  | None, Some e => sql_istrue (e db c r)
  | None, None => false
  end.

(** Permissive policies are combined with OR; with none applicable the
    row is rejected. *)
Definition passes_using {R} (db : database) (c : caller) (ps : list (policy R))
    (cmd : command) (r : R) : bool :=
  existsb (fun p => applies p c cmd && using_true db c r p) ps.

Definition passes_check {R} (db : database) (c : caller) (ps : list (policy R))
    (cmd : command) (r : R) : bool :=
  existsb (fun p => applies p c cmd && check_true db c r p) ps.

(** A row-level operation with its target row(s). *)
Inductive operation (R : Type) :=
  | Select (row : R)
  | Insert (new : R)
  | Update (old new : R)
  | Delete (old : R).
Arguments Select {R} row.
Arguments Insert {R} new.
Arguments Update {R} old new.
Arguments Delete {R} old.

Definition command_of {R} (op : operation R) : command :=
  match op with
  | Select _ => SELECT
  | Insert _ => INSERT
  | Update _ _ => UPDATE
  | Delete _ => DELETE
  end.

Definition rows_of_operation {R} (op : operation R) : list R :=
  match op with
  | Select r | Insert r | Delete r => [r]
  | Update o n => [o; n]
  end.

Definition rls_permits {R} (db : database) (c : caller) (ps : list (policy R))
    (op : operation R) : bool :=
  match op with
  | Select r => passes_using db c ps SELECT r
  | Insert n => passes_check db c ps INSERT n
  | Update o n => passes_using db c ps UPDATE o && passes_check db c ps UPDATE n
  | Delete o => passes_using db c ps DELETE o
  end.

(** *** Policies on [public.profiles] *)

(** [id = auth.uid() or public.is_admin()] *)
Definition self_or_admin : expr profile := fun db c r =>
  sql_or (sql_eq (Some (profile_id r)) (auth_uid c)) (Some (is_admin db c)).

(** [(id = auth.uid() and role = 'user') or public.is_admin()] *)
Definition self_user_or_admin : expr profile := fun db c r =>
  sql_or (sql_and (sql_eq (Some (profile_id r)) (auth_uid c))
                  (sql_eq (Some (profile_role r)) (Some "user")))
         (Some (is_admin db c)).

Definition profiles_select_self_or_admin : policy profile :=
  mkPolicy "profiles_select_self_or_admin" SELECT to_authenticated
           (Some self_or_admin) None.

Definition profiles_insert_self_user_or_admin : policy profile :=
  mkPolicy "profiles_insert_self_user_or_admin" INSERT to_authenticated
           None (Some self_user_or_admin).

Definition profiles_update_self_user_or_admin : policy profile :=
  mkPolicy "profiles_update_self_user_or_admin" UPDATE to_authenticated
           (Some self_or_admin) (Some self_user_or_admin).

Definition profiles_delete_admin_only : policy profile :=
  mkPolicy "profiles_delete_admin_only" DELETE to_authenticated
           (Some (fun db c _ => Some (is_admin db c))) None.

Definition profiles_policies : list (policy profile) :=
  [ profiles_select_self_or_admin;
    profiles_insert_self_user_or_admin;
    profiles_update_self_user_or_admin;
    profiles_delete_admin_only ].

(** *** The inline admin test

    [exists (select 1 from public.profiles p
             where p.id = auth.uid() and p.role = 'admin')]

    Unlike [is_admin] this subquery runs with the caller's own rights, so
    it only sees the profile rows the SELECT policy lets the caller read. *)
Definition admin_profile_exists (db : database) (c : caller) : bool :=
  existsb (fun p => rls_permits db c profiles_policies (Select p) && admin_row_of c p)
          (profiles db).

Definition inline_admin {R} : expr R := fun db c _ => Some (admin_profile_exists db c).

(** *** Policies on [public.products] *)

Definition products_select_authenticated : policy product :=
  mkPolicy "products_select_authenticated" SELECT to_authenticated
           (Some (fun _ _ _ => Some true)) None.

Definition products_insert_admin_only : policy product :=
  mkPolicy "products_insert_admin_only" INSERT to_authenticated
           None (Some inline_admin).

Definition products_update_admin_only : policy product :=
  mkPolicy "products_update_admin_only" UPDATE to_authenticated
           (Some inline_admin) (Some inline_admin).

Definition products_delete_admin_only : policy product :=
  mkPolicy "products_delete_admin_only" DELETE to_authenticated
           (Some inline_admin) None.

Definition products_policies : list (policy product) :=
  [ products_select_authenticated;
    products_insert_admin_only;
    products_update_admin_only;
    products_delete_admin_only ].

(** *** Policies on [public.categories] *)

Definition call_is_admin {R} : expr R := fun db c _ => Some (is_admin db c).

Definition categories_select_authenticated : policy category :=
  mkPolicy "categories_select_authenticated" SELECT to_authenticated
           (Some (fun _ _ _ => Some true)) None.

Definition categories_insert_admin_only : policy category :=
  mkPolicy "categories_insert_admin_only" INSERT to_authenticated
           None (Some call_is_admin).

Definition categories_update_admin_only : policy category :=
  mkPolicy "categories_update_admin_only" UPDATE to_authenticated
           (Some call_is_admin) (Some call_is_admin).

Definition categories_delete_admin_only : policy category :=
  mkPolicy "categories_delete_admin_only" DELETE to_authenticated
           (Some call_is_admin) None.

Definition categories_policies : list (policy category) :=
  [ categories_select_authenticated;
    categories_insert_admin_only;
    categories_update_admin_only;
    categories_delete_admin_only ].

(** *** Policies on [public.orders] *)

(** [user_id = auth.uid() or exists (...)] *)
Definition own_or_admin : expr order := fun db c r =>
  sql_or (sql_eq (Some (order_user_id r)) (auth_uid c))
         (Some (admin_profile_exists db c)).

Definition orders_select_own_or_admin : policy order :=
  mkPolicy "orders_select_own_or_admin" SELECT to_authenticated
           (Some own_or_admin) None.

Definition orders_insert_own_or_admin : policy order :=
  mkPolicy "orders_insert_own_or_admin" INSERT to_authenticated
           None (Some own_or_admin).

Definition orders_update_admin_only : policy order :=
  mkPolicy "orders_update_admin_only" UPDATE to_authenticated
           (Some inline_admin) (Some inline_admin).

Definition orders_delete_admin_only : policy order :=
  mkPolicy "orders_delete_admin_only" DELETE to_authenticated
           (Some inline_admin) None.

Definition orders_policies : list (policy order) :=
  [ orders_select_own_or_admin;
    orders_insert_own_or_admin;
    orders_update_admin_only;
    orders_delete_admin_only ].

(** *** Policies on [storage.objects] *)

(** [bucket_id = 'product-images'] *)
Definition in_product_images : expr storage_object := fun _ _ r =>
  sql_eq (object_bucket_id r) (Some "product-images").

(** [bucket_id = 'product-images' and exists (...)] *)
Definition in_product_images_and_admin : expr storage_object := fun db c r =>
  sql_and (sql_eq (object_bucket_id r) (Some "product-images"))
          (Some (admin_profile_exists db c)).

Definition product_images_select_public : policy storage_object :=
  mkPolicy "product_images_select_public" SELECT to_public
           (Some in_product_images) None.

Definition product_images_admin_insert : policy storage_object :=
  mkPolicy "product_images_admin_insert" INSERT to_authenticated
           None (Some in_product_images_and_admin).

Definition product_images_admin_update : policy storage_object :=
  mkPolicy "product_images_admin_update" UPDATE to_authenticated
           (Some in_product_images_and_admin) (Some in_product_images_and_admin).

Definition product_images_admin_delete : policy storage_object :=
  mkPolicy "product_images_admin_delete" DELETE to_authenticated
           (Some in_product_images_and_admin) None.

Definition storage_policies : list (policy storage_object) :=
  [ product_images_select_public;
    product_images_admin_insert;
    product_images_admin_update;
    product_images_admin_delete ].

(** [bucket_id = name] holds (it is neither false nor NULL). *)
Definition in_bucket (name : string) (o : storage_object) : bool :=
  sql_istrue (sql_eq (object_bucket_id o) (Some name)).

(** ** The engine *)

Definition policies_of (t : table) : list (policy (row_of t)) :=
  match t with
  | public_profiles => profiles_policies
  | public_products => products_policies
  | public_categories => categories_policies
  | public_orders => orders_policies
  | storage_objects => storage_policies
  end.

(** [alter table ... enable row level security], once per [public]
    table. *)
Definition rls_enabled (db : database) (t : table) : bool :=
  match t with
  | public_profiles | public_products | public_categories | public_orders => true
  | storage_objects => storage_objects_rls db
  end.

(** The decision for one row-level operation.  Without row-level
    security a table is governed by its grants alone, which the platform
    hands to both database roles. *)
Definition can (db : database) (c : caller) (t : table) (op : operation (row_of t)) : bool :=
  if rls_enabled db t then rls_permits db c (policies_of t) op else true.

(** What one policy, taken alone, explicitly grants for an operation. *)
Definition explicitly_allows {R} (db : database) (c : caller) (op : operation R)
    (p : policy R) : bool :=
  applies p c (command_of op) &&
  match op with
  | Select r | Delete r => using_true db c r p
  | Insert n => check_true db c n p
  | Update o n => using_true db c o p && check_true db c n p
  end.


(** ** Requests the client sends through the REST layer *)

(** [from("profiles").select("role").eq("id", i)]: the roles of the rows
    with that id which the SELECT policy lets the caller read. *)
Definition select_role_by_id (db : database) (c : caller) (i : uuid) : list string :=
  profile_role <$>
    List.filter (fun p => rls_permits db c profiles_policies (Select p) && has_id i p)
                (profiles db).

Definition set_email (e : option string) (p : profile) : profile :=
  mkProfile (profile_id p) e (profile_role p).

(** [from("profiles").upsert({id, email}, {onConflict: "id"})], that is

    [insert into public.profiles (id, email) values (i, e)
       on conflict (id) do update set id = excluded.id, email = excluded.email]

    run with the caller's rights.  The proposed row takes the column
    default [role = 'user'] and must pass the INSERT policy.  On a conflict
    the existing row must pass the UPDATE policy's USING expression and the
    updated row its WITH CHECK expression; a failure is an error, not a
    skipped row.  The SELECT policy also applies to the rows involved, but
    its expression is implied by the ones checked here.  [role] is not in
    the SET list. *)
Definition upsert_profile (db : database) (c : caller) (i : uuid) (e : option string)
    : sql_result database :=
  let proposed := mkProfile i e "user" in
  if negb (passes_check db c profiles_policies INSERT proposed) then
    Error insufficient_privilege
  else if negb (role_check (profile_role proposed)) then Error check_violation
  else
    match rows_with_id i (profiles db) with
    | [] =>
        if email_taken e (profiles db) then Error unique_violation
        else Ok (mkDb (profiles db ++ [proposed]) (storage_objects_rls db))
    | existing :: _ =>
        if negb (passes_using db c profiles_policies UPDATE existing) then
          Error insufficient_privilege
        else if negb (passes_check db c profiles_policies UPDATE (set_email e existing)) then
          Error insufficient_privilege
        else if email_taken e (List.filter (fun p => negb (has_id i p)) (profiles db)) then
          Error unique_violation
        else
          Ok (mkDb ((fun p => if has_id i p then set_email e p else p) <$> profiles db)
                   (storage_objects_rls db))
    end.

End Rls.

(* ===================================================================== *)
(** * Part II: src/App.jsx                                                *)
(* ===================================================================== *)

Module Client.

Import Rls.

(** ** JavaScript values *)

(** Numbers are IEEE 754 doubles, kept in their specification form: signed
    zeros, infinities, NaN and finite values. *)
Definition number := spec_float.

#[warnings="-register-all"]
Inductive jsval :=
  | JUndefined
  | JNull
  | JBool (b : bool)
  | JNumber (n : number)
  | JString (s : string)
  | JArray (items : list jsval)
  | JObject (fields : gmap string jsval).

(** A plain object, such as a decoded JSON record. *)
Abbreviation object := (gmap string jsval).

Definition pos_zero : number := S754_zero false.

(** The double [1]. *)
Definition one : number := S754_finite false 4503599627370496 (-52).

(** What the script leaves to the JavaScript runtime: the numeric-literal
    grammar behind [Number(string)], number formatting, and the clock
    behind [new Date().toISOString().slice(0, 10)]. *)
Record runtime := mkRuntime {
  StringToNumber : string → number;
  NumberToString : number → string;
  today : string
}.

(** [o.k] on a plain object; an absent property reads as [undefined]. *)
Definition get (o : object) (k : string) : jsval :=
  default JUndefined (o !! k).

(** [v?.k] for a key that no prototype defines: [undefined] on a nullish
    [v], the own property on an object, [undefined] on anything else. *)
Definition optional_get (v : jsval) (k : string) : jsval :=
  match v with
  | JObject o => get o k
  | _ => JUndefined
  end.

Definition number_truthy (n : number) : bool :=
  match n with
  | S754_zero _ | S754_nan => false
  | _ => true
  end.

(** ToBoolean *)
Definition truthy (v : jsval) : bool :=
  match v with
  | JUndefined | JNull => false
  | JBool b => b
  | JNumber n => number_truthy n
  | JString s => negb (String.eqb s "")
  | JArray _ | JObject _ => true
  end.

(** [a || b] *)
Definition js_or (a b : jsval) : jsval := if truthy a then a else b.

(** [a ?? b] *)
Definition nullish (a b : jsval) : jsval :=
  match a with
  | JUndefined | JNull => b
  | _ => a
  end.

(** [String(v)]; an array joins its elements with commas, holes and
    nullish elements printing as the empty string. *)
Fixpoint ToString (rt : runtime) (v : jsval) : string :=
  match v with
  | JUndefined => "undefined"
  | JNull => "null"
  | JBool true => "true"
  | JBool false => "false"
  | JNumber n => NumberToString rt n
  | JString s => s
  | JArray items =>
      String.concat ","
        (List.map (fun x => match x with
                            | JUndefined | JNull => ""
                            | _ => ToString rt x
                            end) items)
  | JObject _ => "[object Object]"
  end.

(** [Number(v)] *)
Definition ToNumber (rt : runtime) (v : jsval) : number :=
  match v with
  | JUndefined => S754_nan
  | JNull => pos_zero
  | JBool true => one
  | JBool false => pos_zero
  | JNumber n => n
  | JString s => StringToNumber rt s
  | JArray _ | JObject _ => StringToNumber rt (ToString rt v)
  end.

(** [Number(v) || 0] *)
Definition number_or_zero (rt : runtime) (v : jsval) : number :=
  let n := ToNumber rt v in
  if number_truthy n then n else pos_zero.

(** [list.includes(v)] on a list of strings: only an equal string is
    found. *)
Definition includes (l : list string) (v : jsval) : bool :=
  match v with
  | JString s => existsb (String.eqb s) l
  | _ => false
  end.

(** [v === s] for a string [s] *)
Definition strict_eq_string (v : jsval) (s : string) : bool :=
  match v with
  | JString s' => String.eqb s' s
  | _ => false
  end.

Definition lower_ascii (a : ascii) : ascii :=
  let n := nat_of_ascii a in
  if (65 <=? n)%nat && (n <=? 90)%nat then ascii_of_nat (n + 32) else a.

(** [s.toLowerCase()] on ASCII text, which is all the [role] column can
    hold that compares equal to a role name. *)
Fixpoint toLowerCase (s : string) : string :=
  match s with
  | EmptyString => EmptyString
  | String a s' => String (lower_ascii a) (toLowerCase s')
  end.

(** ** Constants *)

(** [import.meta.env.VITE_SUPABASE_PRODUCT_IMAGE_BUCKET || "product-images"] *)
Definition PRODUCT_IMAGE_BUCKET (env : option string) : string :=
  match env with
  | Some s => if String.eqb s "" then "product-images" else s
  | None => "product-images"
  end.

Definition ROLE_USER : string := "user".
Definition ROLE_ADMIN : string := "admin".
Definition ROLE_FETCH_TIMEOUT_MS : nat := 4000.
Definition ORDER_STATUSES : list string :=
  ["Placed"; "Processing"; "Shipped"; "Delivered"; "Cancelled"].

(** ** Asynchronous calls *)

(** Time is counted in milliseconds from the moment a function is called.
    A promise either settles at some time with a value, or stays pending
    for ever. *)
Record settled (A : Type) := Settled {
  at_ms : nat;
  value : A
}.
Arguments Settled {A}.
Arguments at_ms {A}.
Arguments value {A}.

Definition promise (A : Type) : Type := option (settled A).

(** What the network does with one request. *)
Inductive transport :=
  | Delivered (latency_ms : nat)
  | Failed (latency_ms : nat) (message : string)
  | Hangs.

(** What a call leaves behind: the stored tables and the console. *)
Record world := mkWorld {
  store : database;
  console : list string
}.

(** The client object of [supabaseClient], which carries the session its
    requests are sent with; [null] when the project is not configured. *)
Record supabase_client := mkClient {
  session : caller
}.

(** The user object the auth API hands out. *)
Record supabase_user := mkUser {
  id : string;
  email : option string
}.

(** [!authUser?.id] *)
Definition no_id (authUser : option supabase_user) : bool :=
  match authUser with
  | Some u => String.eqb (id u) ""
  | None => true
  end.

(** [await p] followed by [k]: [k] starts when [p] settles. *)
Definition await {A B} (p : promise A) (k : A → promise B) : promise B :=
  match p with
  | Some a =>
      match k (value a) with
      | Some b => Some (Settled (at_ms a + at_ms b) (value b))
      | None => None
      end
  | None => None
  end.

Definition resolved {A} (a : A) : promise A := Some (Settled 0 a).

(** The promise has settled by time [ms]. *)
Definition completes_within {A} (p : promise A) (ms : nat) : bool :=
  match p with
  | Some r => (at_ms r <=? ms)%nat
  | None => false
  end.

(** ** [ensureUserProfile]

    The [message] of a database error is represented by its SQLSTATE. *)

Definition ensureUserProfile (supabase : option supabase_client)
    (authUser : option supabase_user) (net : transport) (db : database)
    : promise world :=
  match supabase, authUser with
  | Some client, Some u =>
      if no_id authUser then resolved (mkWorld db [])
      else
        match net with
        | Hangs => None
        | Failed t message =>
            Some (Settled t (mkWorld db ["Failed to ensure profile: " ++ message]))
        | Delivered t =>
            match upsert_profile db (session client) (id u) (email u) with
            | Ok db' => Some (Settled t (mkWorld db' []))
            | Error message =>
                Some (Settled t (mkWorld db ["Failed to ensure profile: " ++ message]))
            end
        end
  | _, _ => resolved (mkWorld db [])
  end.

(** ** [getUserRole] *)

(** The [{ data, error }] pair of [maybeSingle()]: no row is [data: null],
    one row is that row, several rows are an error. *)
Inductive maybe_single :=
  | Data (role : string)
  | NoData
  | QueryError (message : string).

Definition select_role_maybe_single (db : database) (c : caller) (i : uuid)
    (net : transport) : promise maybe_single :=
  match net with
  | Hangs => None
  | Failed t message => Some (Settled t (QueryError message))
  | Delivered t =>
      match select_role_by_id db c i with
      | [] => Some (Settled t NoData)
      | [r] => Some (Settled t (Data r))
      | _ => Some (Settled t (QueryError "PGRST116"))
      end
  end.

(** [String(role || ROLE_USER).toLowerCase() === ROLE_ADMIN ? ROLE_ADMIN : ROLE_USER] *)
Definition role_of_data (role : string) : string :=
  let r := if String.eqb role "" then ROLE_USER else role in
  if String.eqb (toLowerCase r) ROLE_ADMIN then ROLE_ADMIN else ROLE_USER.

Definition getUserRole (supabase : option supabase_client)
    (authUser : option supabase_user) (net_select net_upsert : transport)
    (db : database) : promise (string * world) :=
  match supabase, authUser with
  | Some client, Some u =>
      if no_id authUser then resolved (ROLE_USER, mkWorld db [])
      else
        await (select_role_maybe_single db (session client) (id u) net_select)
          (fun response =>
             match response with
             | QueryError message =>
                 resolved (ROLE_USER, mkWorld db ["Failed to load role: " ++ message])
             | NoData =>
                 await (ensureUserProfile supabase authUser net_upsert db)
                   (fun w => resolved (ROLE_USER, w))
             | Data role => resolved (role_of_data role, mkWorld db [])
             end)
  | _, _ => resolved (ROLE_USER, mkWorld db [])
  end.

(** ** [getUserRoleWithTimeout] *)

(** [Promise.race([lookup, timer])] where the timer resolves with
    [fallback] after [timeoutMs].  The promise that settles first wins.
    When both are due in the same millisecond the order in which the
    runtime delivers them decides; [lookup_first] stands for that order. *)
Definition race_with_timer {A} (lookup : promise A) (timeoutMs : nat) (fallback : A)
    (lookup_first : bool) : settled A :=
  match lookup with
  | Some r =>
      if (at_ms r <? timeoutMs)%nat then r
      else if (at_ms r =? timeoutMs)%nat && lookup_first then r
      else Settled timeoutMs fallback
  | None => Settled timeoutMs fallback
  end.

(** The value the returned promise resolves to, and when.  [timeoutMs] is
    the optional second argument.  The effects of a lookup that lost the
    race still happen later and are not part of the result. *)
Definition getUserRoleWithTimeout (supabase : option supabase_client)
    (authUser : option supabase_user) (timeoutMs : option nat)
    (net_select net_upsert : transport) (lookup_first : bool) (db : database)
    : settled string :=
  let timeoutMs := default ROLE_FETCH_TIMEOUT_MS timeoutMs in
  let fallbackRole := ROLE_USER in
  race_with_timer
    (await (getUserRole supabase authUser net_select net_upsert db)
           (fun rw => resolved (fst rw)))
    timeoutMs fallbackRole lookup_first.

(** ** The role in the view state of [App] *)

Record app_state := mkApp {
  user : option supabase_user;
  userRole : string;
  authReady : bool
}.

(** The listener given to [supabase.auth.onAuthStateChange], run to the
    end of its last [await].  [mounted] is the flag when the event
    arrives, [mounted_later] when the role promise has resolved;
    [session_user] is [session?.user ?? null]. *)
Definition onAuthStateChange (client : supabase_client)
    (mounted mounted_later : bool) (session_user : option supabase_user)
    (net_select net_upsert : transport) (lookup_first : bool) (db : database)
    (st : app_state) : app_state :=
  if negb mounted then st
  else
    match session_user with
    | Some currentUser =>
        let role :=
          getUserRoleWithTimeout (Some client) (Some currentUser) None
                                 net_select net_upsert lookup_first db in
        if negb mounted_later then mkApp session_user ROLE_USER true
        else mkApp session_user (value role) true
    | None => mkApp None ROLE_USER true
    end.

(** ** [normalizeOrder] *)

Record normalized_order := mkOrderView {
  view_id : string;
  view_status : jsval;
  view_date : jsval;
  view_total : number;
  view_items : number;
  view_userId : jsval;
  view_userEmail : jsval
}.

Definition normalizeOrder (rt : runtime) (order : object) (fallback : option object)
    : normalized_order :=
  let fallback := default ∅ fallback in
  {| view_id := ToString rt (get order "id");
     view_status :=
       if includes ORDER_STATUSES (get order "status") then get order "status"
       else JString "Placed";
     view_date :=
       js_or (js_or (get order "order_date") (get order "date")) (JString (today rt));
     view_total := number_or_zero rt (get order "total");
     view_items := number_or_zero rt (nullish (get order "items_count") (get order "items"));
     view_userId := js_or (js_or (get order "user_id") (get fallback "userId")) JNull;
     view_userEmail :=
       js_or (js_or (optional_get (get order "profiles") "email")
                    (get fallback "userEmail"))
             (JString "Unknown") |}.

(** ** [removeCategory] *)

(** A category as [normalizeCategory] leaves it. *)
Record client_category := mkClientCategory {
  cat_id : string;
  cat_name : string
}.

(** The part of the [Storefront] state that [removeCategory] reads or
    sets. *)
Record storefront := mkStorefront {
  categories : list client_category;
  products : list object;
  selectedCategory : string;
  newProductCategory : string;
  adminMessage : string
}.

Inductive request :=
  | DeleteCategory (categoryId : string).

(** [remote] is [None] unless [hasSupabaseConfig && supabase]; otherwise it
    holds the [error] of the reply to the delete request ([None] for
    [null]).  The result is the new state and the requests sent. *)
Definition removeCategory (remote : option (option string)) (st : storefront)
    (categoryId : string) : storefront * list request :=
  match List.find (fun item => String.eqb (cat_id item) categoryId) (categories st) with
  | None => (st, [])
  | Some category =>
      let hasProducts :=
        existsb (fun product => strict_eq_string (get product "category") (cat_name category))
                (products st) in
      if hasProducts then
        (mkStorefront (categories st) (products st) (selectedCategory st)
                      (newProductCategory st)
                      "Cannot delete a category that is used by existing products.",
         [])
      else
        match remote with
        | Some (Some message) =>
            (mkStorefront (categories st) (products st) (selectedCategory st)
                          (newProductCategory st)
                          ("Failed to remove category: " ++ message),
             [DeleteCategory categoryId])
        | _ =>
            let remainingCategories :=
              List.filter (fun item => negb (String.eqb (cat_id item) categoryId))
                          (categories st) in
            (mkStorefront remainingCategories (products st)
               (if String.eqb (selectedCategory st) (cat_name category) then "All"
                else selectedCategory st)
               (if String.eqb (newProductCategory st) (cat_name category) then
                  match remainingCategories with
                  | first :: _ => cat_name first
                  | [] => ""
                  end
                else newProductCategory st)
               "Category removed.",
             match remote with Some _ => [DeleteCategory categoryId] | None => [] end)
        end
  end.

(** ** Invariants of the view state *)

(** Some category of the list carries this name. *)
Definition names_category (st : storefront) (name : string) : Prop :=
  ∃ c, c ∈ categories st ∧ cat_name c = name.

(** The category chip is "All" or an existing category, and the category
    preselected for a new product is empty or an existing category. *)
Definition selection_valid (st : storefront) : Prop :=
  (selectedCategory st = "All" ∨ names_category st (selectedCategory st)) ∧
  (newProductCategory st = "" ∨ names_category st (newProductCategory st)).

(** The status is one of the five order statuses. *)
Definition valid_status (o : normalized_order) : Prop :=
  ∃ s, view_status o = JString s ∧ s ∈ ORDER_STATUSES.

(** ** [normalizeProduct] *)

(** [{ ...product, id: String(product.id), price: Number(product.price) || 0 }] *)
Definition normalizeProduct (rt : runtime) (product : object) : object :=
  <["price" := JNumber (number_or_zero rt (get product "price"))]>
    (<["id" := JString (ToString rt (get product "id"))]> product).

(** ** The cart

    [cartItems] holds one product id per unit in the cart; the ids are the
    strings [normalizeProduct] produces. *)

(** [prev.indexOf(id)], with [None] for [-1]. *)
Fixpoint indexOf (prev : list string) (id : string) : option nat :=
  match prev with
  | [] => None
  | x :: rest => if String.eqb x id then Some 0%nat else S <$> indexOf rest id
  end.

(** [[...prev, id]] *)
Definition increaseQty (id : string) (prev : list string) : list string :=
  prev ++ [id].

(** [[...prev.slice(0, index), ...prev.slice(index + 1)]], or [prev] when
    the id is not in the cart. *)
Definition decreaseQty (id : string) (prev : list string) : list string :=
  match indexOf prev id with
  | None => prev
  | Some index => take index prev ++ drop (S index) prev
  end.

(** ** Requests of the admin panel *)

Inductive remote_call :=
  | DeleteProduct (productId : string)
  | UpdateOrderStatus (orderId : string) (status : string)
  | InsertCategory (name : string)
  | UploadImage (bucket path : string)
  | InsertProduct (row : object).

(** ** [removeProduct]

    [remote] is as for [removeCategory].  The products in the state are
    normalised, so an id is a string. *)
Definition removeProduct (remote : option (option string)) (st : storefront)
    (productId : string) : storefront * list remote_call :=
  match remote with
  | Some (Some message) =>
      (mkStorefront (categories st) (products st) (selectedCategory st)
                    (newProductCategory st) ("Failed to remove product: " ++ message),
       [DeleteProduct productId])
  | _ =>
      (mkStorefront (categories st)
         (List.filter (fun product => negb (strict_eq_string (get product "id") productId))
                      (products st))
         (selectedCategory st) (newProductCategory st) "Product removed.",
       match remote with Some _ => [DeleteProduct productId] | None => [] end)
  end.

(** ** [updateOrderStatus] *)

(** The orders of the view and the admin message. *)
Record order_board := mkBoard {
  orders : list normalized_order;
  boardMessage : string
}.

(** [{ ...order, status: nextStatus }] *)
Definition with_status (status : jsval) (o : normalized_order) : normalized_order :=
  mkOrderView (view_id o) status (view_date o) (view_total o) (view_items o)
              (view_userId o) (view_userEmail o).

Definition updateOrderStatus (rt : runtime) (remote : option (option string))
    (st : order_board) (orderId nextStatus : jsval) : order_board * list remote_call :=
  if negb (includes ORDER_STATUSES nextStatus) then (st, [])
  else
    let call := [UpdateOrderStatus (ToString rt orderId) (ToString rt nextStatus)] in
    match remote with
    | Some (Some message) =>
        (mkBoard (orders st) ("Failed to update order status: " ++ message), call)
    | _ =>
        (mkBoard
           ((fun order => if String.eqb (view_id order) (ToString rt orderId)
                          then with_status nextStatus order else order) <$> orders st)
           "Order status updated.",
         match remote with Some _ => call | None => [] end)
    end.

(** ** [normalizeCategory] and [addCategory] *)

(** Text operations that depend on Unicode tables and the locale, and the
    clock behind [Date.now()]. *)
Record text_runtime := mkText {
  trim : string → string;
  lowercase : string → string;
  localeCompare : string → string → Z;
  now : string
}.

(** [{ id: String(category.id), name: String(category.name || "").trim() }] *)
Definition normalizeCategory (rt : runtime) (tx : text_runtime) (category : object)
    : client_category :=
  mkClientCategory (ToString rt (get category "id"))
                   (trim tx (ToString rt (js_or (get category "name") (JString "")))).

(** One step of a stable sort: [x], which came before the elements of the
    sorted list [l], goes in front of the first element it does not
    follow. *)
Fixpoint insert_by {A} (cmp : A → A → Z) (x : A) (l : list A) : list A :=
  match l with
  | [] => [x]
  | y :: rest => if (cmp x y <=? 0)%Z then x :: y :: rest else y :: insert_by cmp x rest
  end.

(** [list.sort(cmp)].  The sort is stable; for a comparator that orders
    its arguments consistently, as [localeCompare] does, the result is the
    one computed here. *)
Definition sort_by {A} (cmp : A → A → Z) (l : list A) : list A :=
  foldr (insert_by cmp) [] l.

(** [(a, b) => a.name.localeCompare(b.name)] *)
Definition by_name (tx : text_runtime) (a b : client_category) : Z :=
  localeCompare tx (cat_name a) (cat_name b).

Record admin_form := mkForm {
  shop : storefront;
  newCategoryName : string
}.

(** The reply to [insert({ name }).select("id, name").single()]. *)
Inductive insert_reply :=
  | Inserted (data : object)
  | InsertFailed (code message : string).

Definition set_message (message : string) (f : admin_form) : admin_form :=
  mkForm (mkStorefront (categories (shop f)) (products (shop f))
                       (selectedCategory (shop f)) (newProductCategory (shop f)) message)
         (newCategoryName f).

(** The state after a category has been added. *)
Definition category_added (tx : text_runtime) (added : client_category) (name : string)
    (f : admin_form) : admin_form :=
  mkForm (mkStorefront (sort_by (by_name tx) (categories (shop f) ++ [added]))
                       (products (shop f)) (selectedCategory (shop f)) name
                       "Category added.")
         "".

(** [remote] is [None] unless [hasSupabaseConfig && supabase]; otherwise it
    holds the reply to the insert. *)
Definition addCategory (rt : runtime) (tx : text_runtime) (remote : option insert_reply)
    (f : admin_form) : admin_form * list remote_call :=
  let name := trim tx (newCategoryName f) in
  if String.eqb name "" then (f, [])
  else if existsb (fun category =>
                     String.eqb (lowercase tx (cat_name category)) (lowercase tx name))
                  (categories (shop f)) then
    (set_message "Category already exists." f, [])
  else
    match remote with
    | Some (InsertFailed code message) =>
        (set_message (if String.eqb code "23505" then "Category already exists."
                      else "Failed to save category in Supabase: " ++ message) f,
         [InsertCategory name])
    | Some (Inserted data) =>
        (category_added tx (normalizeCategory rt tx data) name f, [InsertCategory name])
    | None =>
        (category_added tx (mkClientCategory ("cat-" ++ now tx) name) name f, [])
    end.

(** ** [addProduct] *)

(** The double [4.5]. *)
Definition four_and_a_half : number := S754_finite false 5066549580791808 (-50).

(** [Number.isFinite(n)] *)
Definition isFinite (n : number) : bool :=
  match n with
  | S754_zero _ | S754_finite _ _ _ => true
  | S754_infinity _ | S754_nan => false
  end.

(** [name.split(".").pop()]: what follows the last dot, or the whole name
    when there is none.  [acc] is the piece read since the last dot. *)
Fixpoint last_piece (acc name : string) : string :=
  match name with
  | EmptyString => acc
  | String a rest =>
      if Ascii.eqb a "."%char then last_piece "" rest
      else last_piece (acc ++ String a "") rest
  end.

(** A character of [[a-z0-9]]. *)
Definition is_lower_alnum (a : ascii) : bool :=
  let n := nat_of_ascii a in
  ((97 <=? n) && (n <=? 122) || (48 <=? n) && (n <=? 57))%nat.

(** [s.replace(/[^a-z0-9]/g, "")] *)
Fixpoint keep_lower_alnum (s : string) : string :=
  match s with
  | EmptyString => EmptyString
  | String a rest =>
      if is_lower_alnum a then String a (keep_lower_alnum rest) else keep_lower_alnum rest
  end.

(** [s || "jpg"] *)
Definition or_jpg (s : string) : string := if String.eqb s "" then "jpg" else s.

(** [const extension = file.name.split(".").pop()?.toLowerCase() || "jpg";
     const safeExtension = extension.replace(/[^a-z0-9]/g, "") || "jpg";] *)
Definition safeExtension (tx : text_runtime) (fileName : string) : string :=
  or_jpg (keep_lower_alnum (or_jpg (lowercase tx (last_piece "" fileName)))).

(** The product form: the shared state and the fields of the form;
    [newProductImageFile] holds the name of the chosen file. *)
Record product_form := mkProductForm {
  form_shop : storefront;
  newProductName : string;
  newProductPrice : string;
  newProductDescription : string;
  newProductImageFile : option string
}.

Definition with_admin_message (message : string) (f : product_form) : product_form :=
  mkProductForm
    (mkStorefront (categories (form_shop f)) (products (form_shop f))
                  (selectedCategory (form_shop f)) (newProductCategory (form_shop f)) message)
    (newProductName f) (newProductPrice f) (newProductDescription f)
    (newProductImageFile f).

(** The state after a product has been put in front of the list. *)
Definition product_added (product : object) (f : product_form) : product_form :=
  mkProductForm
    (mkStorefront (categories (form_shop f)) (product :: products (form_shop f))
                  (selectedCategory (form_shop f)) (newProductCategory (form_shop f))
                  "Product added successfully.")
    "" "" "" None.

(** The fields sent to the backend. *)
Definition product_row (name category description : string) (price : number)
    (image : jsval) : object :=
  {[ "name" := JString name; "category" := JString category; "price" := JNumber price;
     "rating" := JNumber four_and_a_half; "badge" := JString "New";
     "description" := JString description; "color" := JString "#2563eb";
     "image" := image ]}.

(** [hasSupabaseConfig] and [supabase] are the two values of
    [supabaseClient], [supabase] standing for "not null"; [env] is the
    bucket variable; [random_tag] is
    [Math.random().toString(36).slice(2)]; [upload] is the error of the
    upload reply, [publicUrl] the URL of [getPublicUrl], [insert] the reply
    to the insert.  The replies are read only when the request is sent. *)
Definition addProduct (rt : runtime) (tx : text_runtime)
    (hasSupabaseConfig supabase : bool) (env : option string) (random_tag : string)
    (upload : option string) (publicUrl : option string) (insert : insert_reply)
    (f : product_form) : product_form * list remote_call :=
  let name := trim tx (newProductName f) in
  let description := trim tx (newProductDescription f) in
  let price := ToNumber rt (JString (newProductPrice f)) in
  let category := newProductCategory (form_shop f) in
  if String.eqb name "" || String.eqb category "" || String.eqb description ""
     || negb (isFinite price) || SFleb price pos_zero then
    (with_admin_message "Fill all product fields with valid values." f, [])
  else
    match newProductImageFile f with
    | Some _ =>
        if negb hasSupabaseConfig || negb supabase then
          (with_admin_message "Supabase must be configured to upload product images." f, [])
        else
          let fileName := default "" (newProductImageFile f) in
          let imagePath :=
            "products/" ++ now tx ++ "-" ++ random_tag ++ "." ++ safeExtension tx fileName in
          let sent := [UploadImage (PRODUCT_IMAGE_BUCKET env) imagePath] in
          match upload with
          | Some message =>
              (with_admin_message ("Image upload failed: " ++ message) f, sent)
          | None =>
              let image :=
                match publicUrl with
                | Some url => if String.eqb url "" then JNull else JString url
                | None => JNull
                end in
              let row := product_row name category description price image in
              match insert with
              | InsertFailed _ message =>
                  (with_admin_message ("Failed to save product in Supabase: " ++ message) f,
                   (sent ++ [InsertProduct row])%list)
              | Inserted data =>
                  (product_added (normalizeProduct rt data) f,
                   (sent ++ [InsertProduct row])%list)
              end
          end
    | None =>
        let row := product_row name category description price JNull in
        if hasSupabaseConfig && supabase then
          match insert with
          | InsertFailed _ message =>
              (with_admin_message ("Failed to save product in Supabase: " ++ message) f,
               [InsertProduct row])
          | Inserted data =>
              (product_added (normalizeProduct rt data) f, [InsertProduct row])
          end
        else
          (product_added
             (normalizeProduct rt (<["id" := JString ("p-" ++ now tx)]> row)) f, [])
    end.

End Client.

(* ===================================================================== *)
(** * Part II b: the phone sign-in of the OTP variant of src/App.jsx      *)
(* ===================================================================== *)

Module Otp.





Record app_state := mkApp {
  phone : string;
  otp : string;
  confirmation : option string;
  message : string;
  loading : bool
}.



End Otp.

(* ===================================================================== *)
(** * The rule table of the specification                                 *)
(* ===================================================================== *)

Module Spec.

Import Rls.


End Spec.

(* ===================================================================== *)
(** * Sample data                                                         *)
(* ===================================================================== *)

Module Sample.

Import Rls.

Definition root_row : profile := mkProfile "root" (Some "root@example.com") "admin".
Definition alice_row : profile := mkProfile "alice" (Some "alice@example.com") "user".

(** One admin, one ordinary user; "bob" has signed in but has no profile
    row. *)
Definition db : database := mkDb [root_row; alice_row] true.

Definition shoe : product := mkProduct "1" "Runner" "Sneakers" 4999.

Definition alice_order : order := mkOrder "o-1" "alice" "Placed" 499900 1.

Definition shoe_image : storage_object := mkObject (Some "product-images") "shoe.png".

(** A runtime whose number parser knows no numeral at all. *)
Definition blind_runtime : Client.runtime :=
  Client.mkRuntime (fun _ => S754_nan) (fun _ => "NaN") "2026-01-01".

Definition sneakers : Client.client_category := Client.mkClientCategory "c1" "Sneakers".
Definition bags : Client.client_category := Client.mkClientCategory "c2" "Bags".

Definition runner : Client.object :=
  {[ "id" := Client.JString "1"; "category" := Client.JString "Sneakers" ]}.

Definition shop : Client.storefront :=
  Client.mkStorefront [sneakers; bags] [runner] "All" "Sneakers" "".

Definition root_user : Client.supabase_user :=
  Client.mkUser "root" (Some "root@example.com").

(** A runtime that reads every numeral as 1. *)
Definition unit_price_runtime : Client.runtime :=
  Client.mkRuntime (fun _ => Client.one) (fun _ => "1") "2026-01-01".

(** Text operations of a plain runtime: nothing to trim or to lower, names
    compared by length, a fixed clock. *)
Definition plain_text : Client.text_runtime :=
  Client.mkText (fun s => s) (fun s => s)
                (fun a b => (Z.of_nat (String.length a) - Z.of_nat (String.length b))%Z)
                "1700000000000".

End Sample.

(* ===================================================================== *)
(** * Part III: properties of the policies                                *)
(* ===================================================================== *)

Import Rls.

(** ** Three-valued logic and the admin test *)

Lemma sql_eq_some (x y : string) : sql_istrue (sql_eq (Some x) (Some y)) = String.eqb x y.
Proof. simpl. by destruct (String.eqb x y). Qed.

Lemma admin_row_of_authenticated (u : uuid) (p : profile) :
  admin_row_of (Authenticated u) p
  = String.eqb (profile_id p) u && String.eqb (profile_role p) "admin".
Proof.
  unfold admin_row_of; simpl.
  by destruct (String.eqb (profile_id p) u), (String.eqb (profile_role p) "admin").
Qed.

Lemma admin_row_of_anonymous (p : profile) : admin_row_of Anonymous p = false.
Proof. unfold admin_row_of; simpl. by destruct (String.eqb (profile_role p) "admin"). Qed.

Lemma is_admin_anonymous (db : database) : is_admin db Anonymous = false.
Proof.
  unfold is_admin. induction (profiles db) as [|p ps IH]; [done|].
  simpl. by rewrite admin_row_of_anonymous, IH.
Qed.

Lemma is_admin_true_iff (db : database) (u : uuid) :
  is_admin db (Authenticated u) = true ↔
  ∃ p, p ∈ profiles db ∧ profile_id p = u ∧ profile_role p = "admin".
Proof.
  unfold is_admin. rewrite existsb_exists. split.
  - intros (p & Hin & Hp). exists p. rewrite admin_row_of_authenticated in Hp.
    apply andb_true_iff in Hp as [H1 H2].
    apply String.eqb_eq in H1, H2. by rewrite list_elem_of_In.
  - intros (p & Hin & H1 & H2). exists p. rewrite <- list_elem_of_In. split; [done|].
    rewrite admin_row_of_authenticated, H1, H2. by rewrite !String.eqb_refl.
Qed.

(** The rows found by id are exactly the members with that id. *)
Lemma elem_of_rows_with_id (i : uuid) (ps : list profile) (p : profile) :
  p ∈ rows_with_id i ps ↔ p ∈ ps ∧ profile_id p = i.
Proof.
  unfold rows_with_id. rewrite !list_elem_of_In, filter_In.
  unfold has_id. by rewrite String.eqb_eq.
Qed.

Lemma role_of_Some (db : database) (i : uuid) (r : string) :
  role_of db i = Some r →
  ∃ p, p ∈ profiles db ∧ profile_id p = i ∧ profile_role p = r.
Proof.
  unfold role_of. destruct (rows_with_id i (profiles db)) as [|p ps] eqn:E; [done|].
  simpl. intros [= <-]. exists p.
  assert (p ∈ rows_with_id i (profiles db)) as Hp by (rewrite E; left).
  apply elem_of_rows_with_id in Hp as [? ?]. done.
Qed.

Lemma role_of_None (db : database) (i : uuid) (p : profile) :
  role_of db i = None → p ∈ profiles db → profile_id p ≠ i.
Proof.
  unfold role_of. intros H Hin Hid.
  assert (p ∈ rows_with_id i (profiles db)) as Hp by by apply elem_of_rows_with_id.
  destruct (rows_with_id i (profiles db)); [by apply elem_of_nil in Hp | done].
Qed.

(** Under the primary key, two stored rows with the same id are the same
    row. *)
Lemma primary_key_injective (ps : list profile) (p q : profile) :
  NoDup (profile_id <$> ps) → p ∈ ps → q ∈ ps → profile_id p = profile_id q → p = q.
Proof.
  induction ps as [|x xs IH]; intros Hnd Hp Hq Heq.
  - by apply elem_of_nil in Hp.
  - rewrite fmap_cons in Hnd. apply NoDup_cons in Hnd as [Hx Hnd].
    apply elem_of_cons in Hp as [->|Hp]; apply elem_of_cons in Hq as [->|Hq].
    + done.
    + exfalso. apply Hx. rewrite Heq. by apply list_elem_of_fmap_2.
    + exfalso. apply Hx. rewrite <- Heq. by apply list_elem_of_fmap_2.
    + by apply IH.
Qed.

Lemma is_admin_of_role (db : database) (u : uuid) (r : string) :
  profiles_wf db → role_of db u = Some r →
  is_admin db (Authenticated u) = String.eqb r "admin".
Proof.
  intros [Hnd _] Hr. apply role_of_Some in Hr as (p & Hp & Hid & Hrole).
  destruct (String.eqb r "admin") eqn:E.
  - apply String.eqb_eq in E. apply is_admin_true_iff. exists p. by subst.
  - apply not_true_is_false. intros (q & Hq & Hqid & Hqrole)%is_admin_true_iff.
    assert (p = q) as -> by (apply (primary_key_injective (profiles db)); congruence).
    rewrite <- Hrole, Hqrole in E. done.
Qed.


(** The caller's own profile row is always readable, so the inline
    subquery sees the same admin row as the privileged helper. *)
Lemma admin_profile_exists_is_admin (db : database) (c : caller) :
  admin_profile_exists db c = is_admin db c.
Proof.
  unfold admin_profile_exists, is_admin.
  induction (profiles db) as [|p ps IH]; [done|].
  cbn [existsb]. rewrite IH. f_equal.
  destruct c as [|u].
  - by rewrite admin_row_of_anonymous, andb_false_r.
  - rewrite admin_row_of_authenticated.
    destruct (String.eqb (profile_id p) u) eqn:E; [|by rewrite andb_false_r].
    cbn. rewrite E. done.
Qed.

(** ** Closed forms of the decision, table by table *)

Ltac decide_policy :=
  unfold can, rls_permits, passes_using, passes_check, applies, using_true, check_true;
  cbn -[is_admin admin_profile_exists String.eqb];
  unfold inline_admin, call_is_admin, own_or_admin, self_or_admin, self_user_or_admin,
    in_product_images, in_product_images_and_admin, in_bucket, has_id;
  rewrite ?admin_profile_exists_is_admin, ?is_admin_anonymous;
  cbn -[is_admin String.eqb];
  repeat match goal with
    | |- context [String.eqb ?a ?b] => destruct (String.eqb a b)
    | |- context [is_admin ?d ?c] => destruct (is_admin d c)
    end;
  try reflexivity.

Lemma can_anonymous_public (db : database) (t : table) (op : operation (row_of t)) :
  t ≠ storage_objects → can db Anonymous t op = false.
Proof. intros Ht. destruct t; try done; destruct op; decide_policy. Qed.

Lemma can_profiles (db : database) (u : uuid) (op : operation profile) :
  can db (Authenticated u) public_profiles op =
  match op with
  | Select r => has_id u r || is_admin db (Authenticated u)
  | Insert n =>
      has_id u n && String.eqb (profile_role n) "user" || is_admin db (Authenticated u)
  | Update o n =>
      (has_id u o || is_admin db (Authenticated u)) &&
      (has_id u n && String.eqb (profile_role n) "user" || is_admin db (Authenticated u))
  | Delete _ => is_admin db (Authenticated u)
  end.
Proof. destruct op; decide_policy. Qed.

Lemma can_products (db : database) (u : uuid) (op : operation product) :
  can db (Authenticated u) public_products op =
  match op with
  | Select _ => true
  | _ => is_admin db (Authenticated u)
  end.
Proof. destruct op; decide_policy. Qed.

Lemma can_categories (db : database) (u : uuid) (op : operation category) :
  can db (Authenticated u) public_categories op =
  match op with
  | Select _ => true
  | _ => is_admin db (Authenticated u)
  end.
Proof. destruct op; decide_policy. Qed.

Lemma can_orders (db : database) (u : uuid) (op : operation order) :
  can db (Authenticated u) public_orders op =
  match op with
  | Select r | Insert r =>
      String.eqb (order_user_id r) u || is_admin db (Authenticated u)
  | _ => is_admin db (Authenticated u)
  end.
Proof. destruct op; decide_policy. Qed.

Lemma rls_permits_storage (db : database) (c : caller) (op : operation storage_object) :
  rls_permits db c storage_policies op =
  match op with
  | Select r => in_bucket "product-images" r
  | Insert n => in_bucket "product-images" n && is_admin db c
  | Update o n =>
      (in_bucket "product-images" o && is_admin db c) &&
      (in_bucket "product-images" n && is_admin db c)
  | Delete o => in_bucket "product-images" o && is_admin db c
  end.
Proof.
  unfold in_bucket.
  destruct c, op as [[[b|] ?]|[[b|] ?]|[[b|] ?] [[b'|] ?]|[[b|] ?]]; decide_policy.
Qed.

(** On profiles, whatever passes the UPDATE policy is readable, and so is
    a row that passes the INSERT or UPDATE check. *)
Lemma profiles_update_using_is_select (db : database) (c : caller) (r : profile) :
  passes_using db c profiles_policies UPDATE r = passes_using db c profiles_policies SELECT r.
Proof. destruct c; decide_policy. Qed.

Lemma profiles_check_implies_select (db : database) (c : caller) (cmd : command) (r : profile) :
  passes_check db c profiles_policies cmd r = true →
  passes_using db c profiles_policies SELECT r = true.
Proof. destruct c, cmd; decide_policy; done. Qed.

Lemma sample_db_wf : profiles_wf Sample.db.
Proof. split; compute_done. Qed.

(** ** Self-promotion *)

(** C1. For an identity [i] whose stored role is 'user', the profile
    update policy rejects every update whose submitted row is
    [{id = i, role = 'admin'}] and accepts the update of [i]'s own row to
    [{id = i, role = 'user'}].  The decision follows the [role] field of
    the submitted row: with the caller, the stored state and the existing
    row fixed, the update of the own row passes exactly when the submitted
    role is 'user'. *)
Theorem profile_update_blocks_self_promotion
    (db : database) (i : uuid) (old : profile) (e e' : option string) (r : string) :
  profiles_wf db →
  role_of db i = Some "user" →
  can db (Authenticated i) public_profiles (Update old (mkProfile i e' "admin")) = false ∧
  can db (Authenticated i) public_profiles
      (Update (mkProfile i e "user") (mkProfile i e' "user")) = true ∧
  can db (Authenticated i) public_profiles
      (Update (mkProfile i e "user") (mkProfile i e' r)) = String.eqb r "user".
Proof.
  intros Hwf Hrole. rewrite !can_profiles.
  rewrite (is_admin_of_role db i "user" Hwf Hrole).
  unfold has_id; cbn -[String.eqb]. rewrite String.eqb_refl.
  repeat split; cbn; by rewrite ?andb_false_r, ?orb_false_r.
Qed.

Lemma profile_update_blocks_self_promotion_witness :
  profiles_wf Sample.db ∧ role_of Sample.db "alice" = Some "user" ∧
  can Sample.db (Authenticated "alice") public_profiles
      (Update Sample.alice_row (mkProfile "alice" None "admin")) = false ∧
  can Sample.db (Authenticated "alice") public_profiles
      (Update (mkProfile "alice" None "user") (mkProfile "alice" None "user")) = true.
Proof.
  split; [exact sample_db_wf|]. split; [reflexivity|].
  pose proof (profile_update_blocks_self_promotion Sample.db "alice" Sample.alice_row
                None None "user" sample_db_wf eq_refl) as (H1 & H2 & _).
  split; [exact H1 | exact H2].
Defined.

(** ** Default deny *)

Lemma can_explicit (db : database) (c : caller) (t : table) (op : operation (row_of t)) :
  rls_enabled db t = true →
  can db c t op = existsb (explicitly_allows db c op) (policies_of t).
Proof.
  intros Hrls. unfold can. rewrite Hrls. clear Hrls.
  destruct t, op, c; cbn -[is_admin admin_profile_exists String.eqb];
    unfold explicitly_allows, applies, using_true, check_true;
    cbn -[is_admin admin_profile_exists String.eqb];
    repeat match goal with
      | |- context [admin_profile_exists ?d ?k] => destruct (admin_profile_exists d k)
      | |- context [is_admin ?d ?k] => destruct (is_admin d k)
      | |- context [String.eqb ?x ?y] => destruct (String.eqb x y)
      | |- context [sql_istrue ?x] => destruct (sql_istrue x)
      end; reflexivity.
Qed.

(** C3. Default deny: on a table with row-level security enabled, which
    the script itself guarantees for profiles, products, categories and
    orders, an operation that no enumerated policy explicitly allows for
    this caller is denied.  There is no other path to ALLOW. *)
Theorem default_deny
    (db : database) (c : caller) (t : table) (op : operation (row_of t)) :
  (t = storage_objects → storage_objects_rls db = true) →
  existsb (explicitly_allows db c op) (policies_of t) = false →
  can db c t op = false.
Proof.
  intros Hrls Hnone. rewrite can_explicit; [done|].
  destruct t; try done. by apply Hrls.
Qed.

Lemma default_deny_witness :
  (public_orders = storage_objects → storage_objects_rls Sample.db = true) ∧
  existsb (explicitly_allows Sample.db (Authenticated "alice")
             (Delete Sample.alice_order)) (policies_of public_orders) = false ∧
  can Sample.db (Authenticated "alice") public_orders (Delete Sample.alice_order) = false.
Proof.
  split; [discriminate|]. split; [reflexivity|].
  apply (default_deny Sample.db (Authenticated "alice") public_orders
           (Delete Sample.alice_order)); [discriminate | reflexivity].
Defined.

(** ** Anonymous callers *)

(** C5. An anonymous caller is denied select on every product row, and is
    allowed select on every object of the product-images bucket. *)
Theorem anonymous_select_products_and_images
    (db : database) (p : product) (name : string) :
  can db Anonymous public_products (Select p) = false ∧
  can db Anonymous storage_objects (Select (mkObject (Some "product-images") name)) = true.
Proof.
  split.
  - by apply can_anonymous_public.
  - unfold can. destruct (rls_enabled db storage_objects); [|done].
    by rewrite rls_permits_storage.
Qed.

(** ** Orders *)



(** ** Failed role resolution *)






(** ** The storage bucket *)

(** C7, as written, does not hold: with the client configured for the
    bucket "media", an object of "product-images" lies in a bucket other
    than the configured one and is still readable by anyone, while the
    admin cannot upload into the configured bucket. *)
Lemma storage_policies_ignore_configured_bucket :
  Client.PRODUCT_IMAGE_BUCKET (Some "media") = "media" ∧
  object_bucket_id Sample.shoe_image ≠ Some (Client.PRODUCT_IMAGE_BUCKET (Some "media")) ∧
  can Sample.db Anonymous storage_objects (Select Sample.shoe_image) = true ∧
  can Sample.db (Authenticated "root") storage_objects
      (Insert (mkObject (Some (Client.PRODUCT_IMAGE_BUCKET (Some "media"))) "shoe.png"))
  = false.
Proof. repeat split. discriminate. Qed.

(** C7, amended.  The client takes the bucket name from its environment
    and falls back to "product-images" when the variable is unset or
    empty.  The storage policies name the literal "product-images": an
    operation that touches an object of any other bucket, or of none, is
    not granted by them for any caller, and is denied once row-level
    security is on for the objects table. *)
Theorem storage_policies_scoped_to_product_images
    (db : database) (c : caller) (op : operation storage_object) (o : storage_object) :
  o ∈ rows_of_operation op →
  object_bucket_id o ≠ Some "product-images" →
  rls_permits db c storage_policies op = false ∧
  (storage_objects_rls db = true → can db c storage_objects op = false) ∧
  Client.PRODUCT_IMAGE_BUCKET None = "product-images" ∧
  Client.PRODUCT_IMAGE_BUCKET (Some "") = "product-images" ∧
  (∀ name, name ≠ "" → Client.PRODUCT_IMAGE_BUCKET (Some name) = name).
Proof.
  intros Hin Hne.
  assert (in_bucket "product-images" o = false) as Hout.
  { unfold in_bucket. destruct (object_bucket_id o) as [b|]; [|done].
    rewrite sql_eq_some. apply String.eqb_neq. congruence. }
  assert (rls_permits db c storage_policies op = false) as Hdeny.
  { rewrite rls_permits_storage.
    destruct op; cbn in Hin;
      repeat (apply elem_of_cons in Hin as [->|Hin]);
      try (by apply elem_of_nil in Hin);
      rewrite Hout; by rewrite ?andb_false_r. }
  split; [done|]. split.
  - intros Hrls. unfold can, rls_enabled. by rewrite Hrls.
  - repeat split. intros name Hname. unfold Client.PRODUCT_IMAGE_BUCKET.
    by apply String.eqb_neq in Hname as ->.
Qed.

Lemma storage_policies_scoped_to_product_images_witness :
  mkObject (Some "media") "shoe.png" ∈ rows_of_operation (Insert (mkObject (Some "media") "shoe.png")) ∧
  rls_permits Sample.db (Authenticated "root") storage_policies
    (Insert (mkObject (Some "media") "shoe.png")) = false.
Proof.
  split; [left|].
  apply (proj1 (storage_policies_scoped_to_product_images Sample.db (Authenticated "root")
                  (Insert (mkObject (Some "media") "shoe.png"))
                  (mkObject (Some "media") "shoe.png")
                  ltac:(left) ltac:(discriminate))).
Defined.

(** ** Profile provisioning *)

Lemma rows_with_id_nil_iff (i : uuid) (ps : list profile) :
  rows_with_id i ps = [] ↔ existsb (has_id i) ps = false.
Proof.
  unfold rows_with_id. induction ps as [|p ps IH]; [done|].
  cbn. destruct (has_id i p); cbn; [split; discriminate | exact IH].
Qed.

Lemma role_of_None_iff (db : database) (i : uuid) :
  role_of db i = None ↔ rows_with_id i (profiles db) = [].
Proof. unfold role_of. by destruct (rows_with_id i (profiles db)). Qed.

(** Under the primary key an id selects at most one row. *)
Lemma primary_key_at_most_one (i : uuid) (ps : list profile) :
  NoDup (profile_id <$> ps) → (length (rows_with_id i ps) ≤ 1)%nat.
Proof.
  induction ps as [|p ps IH]; intros Hnd; [cbn; lia|].
  rewrite fmap_cons in Hnd. apply NoDup_cons in Hnd as [Hp Hnd].
  unfold rows_with_id in *. cbn. destruct (has_id i p) eqn:E; [|by apply IH].
  apply String.eqb_eq in E.
  assert (List.filter (has_id i) ps = []) as ->; [|cbn; lia].
  destruct (List.filter (has_id i) ps) as [|q qs] eqn:F; [done|].
  assert (q ∈ rows_with_id i ps) as Hq by (unfold rows_with_id; rewrite F; left).
  apply elem_of_rows_with_id in Hq as [Hq Hqi].
  exfalso. apply Hp. rewrite E, <- Hqi. by apply list_elem_of_fmap_2.
Qed.

Lemma profile_count_of_role (db : database) (i : uuid) (r : string) :
  profiles_wf db → role_of db i = Some r → profile_count i db = 1.
Proof.
  intros [Hnd _] Hr. pose proof (primary_key_at_most_one i (profiles db) Hnd) as Hle.
  unfold profile_count, role_of in *.
  destruct (rows_with_id i (profiles db)); [done | cbn in *; lia].
Qed.

(** The trigger either finds the id and leaves the table alone, or
    appends the fresh row, or is stopped by the unique index on email. *)
Lemma handle_new_user_cases (db : database) (new : auth_user) :
  (role_of db (user_id new) ≠ None ∧ handle_new_user db new = Ok db) ∨
  (role_of db (user_id new) = None ∧
   email_taken (user_email new) (profiles db) = false ∧
   handle_new_user db new =
     Ok (mkDb (profiles db ++ [mkProfile (user_id new) (user_email new) "user"])
              (storage_objects_rls db))) ∨
  (role_of db (user_id new) = None ∧
   email_taken (user_email new) (profiles db) = true ∧
   handle_new_user db new = Error unique_violation).
Proof.
  unfold handle_new_user, insert_on_conflict_id_do_nothing. cbn -[email_taken].
  destruct (existsb (has_id (user_id new)) (profiles db)) eqn:E.
  - left. split; [|done]. rewrite role_of_None_iff, rows_with_id_nil_iff. congruence.
  - right. apply rows_with_id_nil_iff, role_of_None_iff in E.
    destruct (email_taken (user_email new) (profiles db)); [right|left]; done.
Qed.

Lemma handle_new_user_existing (db : database) (new : auth_user) (r : string) :
  role_of db (user_id new) = Some r → handle_new_user db new = Ok db.
Proof.
  intros Hr. destruct (handle_new_user_cases db new) as [[_ H]|[[H _]|[H _]]];
    [done | congruence..].
Qed.

Lemma role_of_app_fresh (db : database) (i : uuid) (p : profile) :
  role_of db i = None → profile_id p = i →
  role_of (mkDb (profiles db ++ [p]) (storage_objects_rls db)) i = Some (profile_role p).
Proof.
  intros Hnone Hid. apply role_of_None_iff in Hnone.
  unfold role_of, rows_with_id in *. cbn. rewrite List.filter_app, Hnone. cbn.
  unfold has_id. rewrite Hid, String.eqb_refl. done.
Qed.

Lemma profiles_wf_app_fresh (db : database) (p : profile) :
  profiles_wf db → role_of db (profile_id p) = None → role_check (profile_role p) = true →
  profiles_wf (mkDb (profiles db ++ [p]) (storage_objects_rls db)).
Proof.
  intros [Hnd Hall] Hnone Hrole. split; cbn.
  - rewrite fmap_app. apply NoDup_app. split; [done|]. split; [|apply NoDup_singleton].
    intros x Hx Hx'. apply list_elem_of_singleton in Hx'. subst x.
    apply list_elem_of_fmap in Hx as (q & Hq & Hin).
    by apply (role_of_None db (profile_id p) q).
  - apply Forall_app. split; [done|]. by apply Forall_singleton.
Qed.

(** The upsert never touches [role], and it keeps every id's row count. *)
Lemma upsert_profile_preserves (db db' : database) (c : caller) (j : uuid)
    (e : option string) (i : uuid) :
  upsert_profile db c j e = Ok db' →
  (role_of db' i = role_of db i ∧ profile_count i db' = profile_count i db) ∨
  (role_of db i = None ∧ role_of db' i = Some "user" ∧ profile_count i db' = 1).
Proof.
  unfold upsert_profile.
  destruct (negb (passes_check db c profiles_policies INSERT _)); [done|].
  cbn [profile_role role_check String.eqb Ascii.eqb Bool.eqb orb negb].
  destruct (rows_with_id j (profiles db)) as [|old rest] eqn:Hrows.
  - destruct (email_taken e (profiles db)); [done|]. intros [= <-].
    unfold role_of, profile_count, rows_with_id in *. cbn [profiles].
    rewrite List.filter_app. cbn [List.filter].
    change (has_id i (mkProfile j e "user")) with (String.eqb j i).
    destruct (String.eqb j i) eqn:E.
    + apply String.eqb_eq in E. subst i. right. rewrite Hrows. done.
    + left. by rewrite app_nil_r.
  - destruct (negb (passes_using _ _ _ _ _)); [done|].
    destruct (negb (passes_check _ _ _ _ _)); [done|].
    destruct (email_taken _ _); [done|]. intros [= <-]. left.
    unfold role_of, profile_count, rows_with_id. cbn [profiles]. clear Hrows.
    induction (profiles db) as [|p ps [IH1 IH2]]; [done|].
    rewrite fmap_cons. cbn [List.filter].
    assert (has_id i (if has_id j p then set_email e p else p) = has_id i p) as ->
      by by destruct (has_id j p).
    destruct (has_id i p); [|done]. split.
    + cbn. by destruct (has_id j p).
    + cbn. by rewrite IH2.
Qed.

Lemma ensureUserProfile_preserves (db : database) (supabase : option Client.supabase_client)
    (authUser : option Client.supabase_user) (net : Client.transport)
    (w : Client.settled Client.world) (i : uuid) :
  Client.ensureUserProfile supabase authUser net db = Some w →
  (role_of (Client.store (Client.value w)) i = role_of db i ∧
   profile_count i (Client.store (Client.value w)) = profile_count i db) ∨
  (role_of db i = None ∧ role_of (Client.store (Client.value w)) i = Some "user" ∧
   profile_count i (Client.store (Client.value w)) = 1).
Proof.
  unfold Client.ensureUserProfile.
  destruct supabase as [client|], authUser as [u|]; try (intros [= <-]; by left).
  destruct (Client.no_id (Some u)); [intros [= <-]; by left|].
  destruct net as [t|t m|]; [|intros [= <-]; by left|done].
  destruct (upsert_profile db (Client.session client) (Client.id u) (Client.email u))
    as [db'|err] eqn:E; intros [= <-]; [|by left].
  by apply (upsert_profile_preserves db db' _ _ _ i) in E.
Qed.

(** C4. Provisioning is idempotent.  Once the trigger has run for an
    identity there is exactly one profile row for it; the row it created
    carries role 'user'; a row that was already there keeps its role;
    running the trigger again changes nothing.  Whatever role the row
    holds later, neither the trigger nor the client's upsert
    ([ensureUserProfile]) changes it or adds a second row, and a row that
    the upsert creates carries role 'user'. *)
Theorem provisioning_idempotent (db db1 : database) (new : auth_user) :
  profiles_wf db →
  handle_new_user db new = Ok db1 →
  profile_count (user_id new) db1 = 1 ∧
  (role_of db (user_id new) = None → role_of db1 (user_id new) = Some "user") ∧
  (∀ r, role_of db (user_id new) = Some r → role_of db1 (user_id new) = Some r) ∧
  handle_new_user db1 new = Ok db1 ∧
  (∀ db2 new' r,
     user_id new' = user_id new → role_of db2 (user_id new) = Some r →
     handle_new_user db2 new' = Ok db2) ∧
  (∀ db2 supabase authUser net w r,
     profiles_wf db2 → role_of db2 (user_id new) = Some r →
     Client.ensureUserProfile supabase authUser net db2 = Some w →
     role_of (Client.store (Client.value w)) (user_id new) = Some r ∧
     profile_count (user_id new) (Client.store (Client.value w)) = 1) ∧
  (∀ db2 supabase authUser net w,
     role_of db2 (user_id new) = None →
     Client.ensureUserProfile supabase authUser net db2 = Some w →
     role_of (Client.store (Client.value w)) (user_id new) = None ∨
     role_of (Client.store (Client.value w)) (user_id new) = Some "user").
Proof.
  intros Hwf Hrun.
  assert (∃ r, role_of db1 (user_id new) = Some r ∧ profiles_wf db1 ∧
               (role_of db (user_id new) = None → r = "user") ∧
               (∀ r', role_of db (user_id new) = Some r' → r = r'))
    as (r1 & Hr1 & Hwf1 & Hfresh & Hkept).
  { destruct (handle_new_user_cases db new) as [[Hsome H]|[(Hnone & _ & H)|(_ & _ & H)]];
      rewrite H in Hrun; [| |done]; injection Hrun as <-.
    - destruct (role_of db (user_id new)) as [r|] eqn:E; [|done].
      exists r. repeat split; [apply Hwf.. | done | congruence].
    - exists "user". split; [by apply role_of_app_fresh|].
      split; [by apply profiles_wf_app_fresh|]. split; [done|congruence]. }
  split; [by apply (profile_count_of_role db1 _ r1)|].
  split; [intros H; by rewrite Hr1, (Hfresh H)|].
  split; [intros r H; by rewrite Hr1, (Hkept r H)|].
  split; [by apply (handle_new_user_existing db1 new r1)|].
  split; [|split].
  - intros db2 new' r Hid Hr. apply (handle_new_user_existing db2 new' r). by rewrite Hid.
  - intros db2 supabase authUser net w r Hwf2 Hr Hw.
    destruct (ensureUserProfile_preserves db2 _ _ _ w (user_id new) Hw)
      as [[-> ->]|[Hnone _]]; [|congruence].
    split; [done|]. by apply (profile_count_of_role db2 _ r).
  - intros db2 supabase authUser net w Hnone Hw.
    destruct (ensureUserProfile_preserves db2 _ _ _ w (user_id new) Hw)
      as [[-> _]|(_ & -> & _)]; auto.
Qed.

Lemma provisioning_idempotent_witness :
  profiles_wf Sample.db ∧
  handle_new_user Sample.db (mkAuthUser "bob" (Some "bob@example.com"))
  = Ok (mkDb [Sample.root_row; Sample.alice_row;
              mkProfile "bob" (Some "bob@example.com") "user"] true) ∧
  profile_count "bob"
    (mkDb [Sample.root_row; Sample.alice_row;
           mkProfile "bob" (Some "bob@example.com") "user"] true) = 1.
Proof.
  split; [exact sample_db_wf|]. split; [reflexivity|].
  apply (provisioning_idempotent Sample.db _ (mkAuthUser "bob" (Some "bob@example.com"))
           sample_db_wf eq_refl).
Defined.

(* ===================================================================== *)
(** * Part IV: properties of the client                                   *)
(* ===================================================================== *)

Import Client.

(** ** Category removal *)

Lemma strict_eq_string_true (v : jsval) (s : string) :
  strict_eq_string v s = true ↔ v = JString s.
Proof.
  destruct v; cbn; try (split; [discriminate|by intros [=]]).
  rewrite String.eqb_eq. split; [by intros ->|by intros [= ->]].
Qed.

Lemma find_some_elem_of {A} (f : A → bool) (l : list A) (x : A) :
  List.find f l = Some x → x ∈ l ∧ f x = true.
Proof. intros H. apply find_some in H as [H1 H2]. by rewrite list_elem_of_In. Qed.

(** C8. When the category that [removeCategory] resolves from the id is
    named by some product, the call only sets the error message: the
    category list is unchanged, the category is still in it, and no
    delete request is sent.  Conversely the list changes, or a delete
    request goes out, only when no product names the category. *)
Theorem removeCategory_keeps_referenced_category
    (remote : option (option string)) (st : storefront) (categoryId : string)
    (category : client_category) :
  List.find (fun item => String.eqb (cat_id item) categoryId) (categories st)
    = Some category →
  ((∃ product, product ∈ products st ∧
               get product "category" = JString (cat_name category)) →
   categories (removeCategory remote st categoryId).1 = categories st ∧
   category ∈ categories (removeCategory remote st categoryId).1 ∧
   adminMessage (removeCategory remote st categoryId).1
     = "Cannot delete a category that is used by existing products." ∧
   (removeCategory remote st categoryId).2 = []) ∧
  (categories (removeCategory remote st categoryId).1 ≠ categories st ∨
   (removeCategory remote st categoryId).2 ≠ [] →
   ∀ product, product ∈ products st →
              get product "category" ≠ JString (cat_name category)).
Proof.
  intros Hfind. unfold removeCategory. rewrite Hfind.
  destruct (existsb _ (products st)) eqn:Hused.
  - split; [|intros [H|H]; done].
    intros _. cbn. repeat split. by apply find_some_elem_of in Hfind as [? _].
  - split.
    + intros (product & Hin & Hcat). exfalso.
      apply not_true_iff_false in Hused. apply Hused.
      apply existsb_exists. exists product.
      split; [by apply list_elem_of_In | by apply strict_eq_string_true].
    + intros _ product Hin Hcat.
      apply not_true_iff_false in Hused. apply Hused.
      apply existsb_exists. exists product.
      split; [by apply list_elem_of_In | by apply strict_eq_string_true].
Qed.

Lemma removeCategory_keeps_referenced_category_witness :
  List.find (fun item => String.eqb (cat_id item) "c1") (categories Sample.shop)
    = Some Sample.sneakers ∧
  categories (removeCategory (Some None) Sample.shop "c1").1 = categories Sample.shop ∧
  adminMessage (removeCategory (Some None) Sample.shop "c1").1
    = "Cannot delete a category that is used by existing products.".
Proof.
  split; [reflexivity|].
  destruct (proj1 (removeCategory_keeps_referenced_category (Some None) Sample.shop "c1"
                     Sample.sneakers eq_refl)) as (H1 & _ & H2 & _).
  - exists Sample.runner. split; [left | reflexivity].
  - split; [exact H1 | exact H2].
Defined.

(** ** Role lookup with a timeout *)

Lemma race_with_timer_late {A} (lookup : promise A) (ms : nat) (fallback : A) (tie : bool) :
  completes_within lookup ms = false →
  race_with_timer lookup ms fallback tie = Settled ms fallback.
Proof.
  unfold completes_within, race_with_timer. destruct lookup as [r|]; [|done].
  intros H. apply Nat.leb_gt in H.
  destruct (Nat.ltb_spec (at_ms r) ms); [lia|].
  destruct (Nat.eqb_spec (at_ms r) ms); [lia|]. done.
Qed.

Lemma completes_within_await_value {A B} (p : promise A) (f : A → B) (ms : nat) :
  completes_within (await p (fun a => resolved (f a))) ms = completes_within p ms.
Proof.
  destruct p as [r|]; [|done]. cbn. by rewrite Nat.add_0_r.
Qed.

(** C9. When the role lookup has not completed within the configured
    4000 ms, [getUserRoleWithTimeout] resolves to 'user', at the
    deadline, and that is the role the auth listener leaves in the view
    state.  The fallback belongs to the client only: the admin test of
    the policies reads the stored role and is true for a stored admin
    whatever the network did to the client's lookup. *)
Theorem role_lookup_timeout_falls_back_to_user
    (supabase : option supabase_client) (authUser : option supabase_user)
    (net_select net_upsert : transport) (tie : bool) (db : database) :
  completes_within (getUserRole supabase authUser net_select net_upsert db)
                   ROLE_FETCH_TIMEOUT_MS = false →
  getUserRoleWithTimeout supabase authUser None net_select net_upsert tie db
    = Settled 4000 "user" ∧
  (∀ client u mounted_later st,
     supabase = Some client → authUser = Some u →
     userRole (onAuthStateChange client true mounted_later (Some u)
                 net_select net_upsert tie db st) = "user") ∧
  (∀ u, authUser = Some u → role_of db (id u) = Some "admin" →
        is_admin db (Authenticated (id u)) = true ∧
        admin_profile_exists db (Authenticated (id u)) = true).
Proof.
  intros Hlate.
  assert (getUserRoleWithTimeout supabase authUser None net_select net_upsert tie db
          = Settled 4000 "user") as Hrace.
  { unfold getUserRoleWithTimeout. cbn [default].
    apply race_with_timer_late. by rewrite completes_within_await_value. }
  split; [done|]. split.
  - intros client u later st -> ->. unfold onAuthStateChange. cbn [negb].
    rewrite Hrace. by destruct later.
  - intros u _ Hrole. rewrite admin_profile_exists_is_admin.
    assert (is_admin db (Authenticated (id u)) = true); [|done].
    apply is_admin_true_iff. by apply role_of_Some.
Qed.

Lemma role_lookup_timeout_falls_back_to_user_witness :
  completes_within
    (getUserRole (Some (mkClient (Authenticated "root"))) (Some Sample.root_user)
                 (Delivered 4001) Hangs Sample.db) ROLE_FETCH_TIMEOUT_MS = false ∧
  getUserRoleWithTimeout (Some (mkClient (Authenticated "root"))) (Some Sample.root_user)
    None (Delivered 4001) Hangs true Sample.db = Settled 4000 "user" ∧
  is_admin Sample.db (Authenticated "root") = true.
Proof.
  split; [reflexivity|].
  destruct (role_lookup_timeout_falls_back_to_user
              (Some (mkClient (Authenticated "root"))) (Some Sample.root_user)
              (Delivered 4001) Hangs true Sample.db eq_refl) as (H1 & _ & H2).
  split; [exact H1|]. exact (proj1 (H2 Sample.root_user eq_refl eq_refl)).
Defined.

(** ** Order normalisation *)

Lemma includes_spec (l : list string) (v : jsval) :
  includes l v = true ↔ ∃ s, v = JString s ∧ s ∈ l.
Proof.
  destruct v; cbn; try (split; [discriminate | by intros (? & [=] & _)]).
  rewrite existsb_exists. split.
  - intros (x & Hin & Hx). apply String.eqb_eq in Hx. subst x.
    exists s. by rewrite list_elem_of_In.
  - intros (x & [= <-] & Hin). exists s. rewrite <- list_elem_of_In.
    by rewrite String.eqb_refl.
Qed.

Lemma number_or_zero_not_nan (rt : runtime) (v : jsval) :
  number_or_zero rt v ≠ S754_nan.
Proof. unfold number_or_zero. by destruct (ToNumber rt v). Qed.

Lemma number_or_zero_of_nan (rt : runtime) (v : jsval) :
  ToNumber rt v = S754_nan → number_or_zero rt v = pos_zero.
Proof. unfold number_or_zero. by intros ->. Qed.

(** C10. For every input record, the normalised status is the input
    status when that is one of the five order statuses and 'Placed'
    otherwise; the total is 0 when the input total is missing (absent,
    [undefined] or [null]) or does not convert to a number, and so is the
    item count with respect to [items_count ?? items]; neither number is
    ever NaN. *)
Theorem normalizeOrder_valid (rt : runtime) (order : object) (fallback : option object) :
  (∃ s, view_status (normalizeOrder rt order fallback) = JString s ∧ s ∈ ORDER_STATUSES) ∧
  (∀ s, s ∈ ORDER_STATUSES → get order "status" = JString s →
        view_status (normalizeOrder rt order fallback) = JString s) ∧
  ((∀ s, s ∈ ORDER_STATUSES → get order "status" ≠ JString s) →
   view_status (normalizeOrder rt order fallback) = JString "Placed") ∧
  (get order "total" = JUndefined ∨ get order "total" = JNull ∨
   ToNumber rt (get order "total") = S754_nan →
   view_total (normalizeOrder rt order fallback) = pos_zero) ∧
  (nullish (get order "items_count") (get order "items") = JUndefined ∨
   nullish (get order "items_count") (get order "items") = JNull ∨
   ToNumber rt (nullish (get order "items_count") (get order "items")) = S754_nan →
   view_items (normalizeOrder rt order fallback) = pos_zero) ∧
  view_total (normalizeOrder rt order fallback) ≠ S754_nan ∧
  view_items (normalizeOrder rt order fallback) ≠ S754_nan.
Proof.
  cbn [normalizeOrder view_status view_total view_items].
  destruct (includes ORDER_STATUSES (get order "status")) eqn:E.
  - apply includes_spec in E as (s & Hs & Hin). rewrite Hs.
    repeat split; try apply number_or_zero_not_nan.
    + by exists s.
    + by intros s' _ [= ->].
    + intros H. by destruct (H s Hin).
    + intros [->|[->|H]]; [done..|by apply number_or_zero_of_nan].
    + intros [->|[->|H]]; [done..|by apply number_or_zero_of_nan].
  - repeat split; try apply number_or_zero_not_nan.
    + exists "Placed". split; [done|]. left.
    + intros s Hin Hs. apply not_true_iff_false in E. destruct E.
      apply includes_spec. by exists s.
    + intros [->|[->|H]]; [done..|by apply number_or_zero_of_nan].
    + intros [->|[->|H]]; [done..|by apply number_or_zero_of_nan].
Qed.

Lemma normalizeOrder_valid_witness :
  view_status (normalizeOrder Sample.blind_runtime
                 {[ "id" := JNumber one; "status" := JString "Lost";
                    "total" := JString "n/a" ]} None) = JString "Placed" ∧
  view_total (normalizeOrder Sample.blind_runtime
                {[ "id" := JNumber one; "status" := JString "Lost";
                   "total" := JString "n/a" ]} None) = pos_zero.
Proof.
  destruct (normalizeOrder_valid Sample.blind_runtime
              {[ "id" := JNumber one; "status" := JString "Lost";
                 "total" := JString "n/a" ]} None) as (_ & _ & H1 & H2 & _).
  split.
  - apply H1. intros s Hs. vm_compute. intros [= <-]. revert Hs. by compute_done.
  - apply H2. right; right. reflexivity.
Defined.

(* ===================================================================== *)
(** * Part V: the model at work                                           *)
(* ===================================================================== *)

(** The scenario of the specification: a user may not promote itself, an
    admin may promote it, and the admin test then follows the stored
    role. *)
Example scenario_self_promotion_denied :
  can Sample.db (Authenticated "alice") public_profiles
      (Update Sample.alice_row (mkProfile "alice" (Some "alice@example.com") "admin")) = false.
Proof. reflexivity. Qed.

Example scenario_admin_promotes :
  can Sample.db (Authenticated "root") public_profiles
      (Update Sample.alice_row (mkProfile "alice" (Some "alice@example.com") "admin")) = true ∧
  is_admin (mkDb [Sample.root_row; mkProfile "alice" (Some "alice@example.com") "admin"] true)
           (Authenticated "alice") = true.
Proof. split; reflexivity. Qed.

Example category_insert_needs_admin :
  can Sample.db (Authenticated "alice") public_categories (Insert (mkCategory "c9" "Hats")) = false ∧
  can Sample.db (Authenticated "root") public_categories (Insert (mkCategory "c9" "Hats")) = true.
Proof. split; reflexivity. Qed.

(** The unique index on email stops the trigger for a new id. *)
Example trigger_email_collision :
  handle_new_user Sample.db (mkAuthUser "mallory" (Some "alice@example.com"))
  = Error unique_violation.
Proof. reflexivity. Qed.

Example trigger_existing_id_untouched :
  handle_new_user Sample.db (mkAuthUser "root" (Some "other@example.com")) = Ok Sample.db.
Proof. reflexivity. Qed.

(** A stored admin whose lookup answers in time is shown as admin. *)
Example lookup_in_time :
  getUserRoleWithTimeout (Some (mkClient (Authenticated "root"))) (Some Sample.root_user)
    None (Delivered 120) Hangs true Sample.db = Settled 120 "admin".
Proof. reflexivity. Qed.

(** An identity without a profile row gets one from the client, with role
    'user', after both requests have been answered. *)
Example lookup_creates_profile :
  getUserRole (Some (mkClient (Authenticated "bob"))) (Some (mkUser "bob" None))
    (Delivered 80) (Delivered 50) Sample.db
  = Some (Settled 130
            ("user",
             mkWorld (mkDb [Sample.root_row; Sample.alice_row; mkProfile "bob" None "user"]
                           true) [])).
Proof. reflexivity. Qed.

(** Without a session the upsert is refused and only logged. *)
Example upsert_without_session :
  ensureUserProfile (Some (mkClient Anonymous)) (Some (mkUser "bob" None))
    (Delivered 50) Sample.db
  = Some (Settled 50 (mkWorld Sample.db ["Failed to ensure profile: 42501"])).
Proof. reflexivity. Qed.

Example removeCategory_unreferenced :
  removeCategory (Some None) Sample.shop "c2"
  = (mkStorefront [Sample.sneakers] [Sample.runner] "All" "Sneakers" "Category removed.",
     [DeleteCategory "c2"]).
Proof. reflexivity. Qed.

Example normalizeOrder_row :
  normalizeOrder Sample.blind_runtime
    {[ "id" := JString "o-7"; "status" := JString "Shipped";
       "order_date" := JString "2026-02-03"; "total" := JNumber one;
       "items_count" := JNull; "items" := JBool true;
       "profiles" := JObject {[ "email" := JString "alice@example.com" ]} ]}
    (Some {[ "userId" := JString "alice" ]})
  = mkOrderView "o-7" (JString "Shipped") (JString "2026-02-03") one one
                (JString "alice") (JString "alice@example.com").
Proof. vm_compute. reflexivity. Qed.

(* ===================================================================== *)
(** * Part VI: further properties of the policies                         *)
(* ===================================================================== *)

(** The stored table enters a decision only through the admin test of the
    caller. *)
Lemma can_depends_on_admin_test
    (db db' : database) (c : caller) (t : table) (op : operation (row_of t)) :
  is_admin db c = is_admin db' c →
  storage_objects_rls db = storage_objects_rls db' →
  can db c t op = can db' c t op.
Proof.
  intros Hadm Hrls. unfold can.
  assert (rls_enabled db t = rls_enabled db' t) as <- by (destruct t; cbn; congruence).
  destruct (rls_enabled db t); [|done]. clear Hrls.
  destruct t, op;
    unfold rls_permits, passes_using, passes_check, applies, using_true, check_true;
    cbn -[is_admin admin_profile_exists String.eqb];
    unfold inline_admin, call_is_admin, own_or_admin, self_or_admin, self_user_or_admin,
      in_product_images, in_product_images_and_admin;
    rewrite ?admin_profile_exists_is_admin, ?Hadm; reflexivity.
Qed.

Lemma is_admin_rows_with_id (db : database) (u : uuid) :
  is_admin db (Authenticated u)
  = existsb (admin_row_of (Authenticated u)) (rows_with_id u (profiles db)).
Proof.
  unfold is_admin, rows_with_id. induction (profiles db) as [|p ps IH]; [done|].
  cbn [existsb List.filter]. rewrite IH, admin_row_of_authenticated. unfold has_id.
  destruct (String.eqb (profile_id p) u) eqn:E; [|done].
  cbn [existsb]. by rewrite admin_row_of_authenticated, E.
Qed.

Lemma is_admin_of_admin_role (db : database) (a : uuid) :
  role_of db a = Some "admin" → is_admin db (Authenticated a) = true.
Proof. intros H. apply is_admin_true_iff. by apply role_of_Some. Qed.

(** X1. An identity whose stored role is 'admin' passes every policy of
    the four public tables, whatever the operation and the rows, and every
    storage policy as long as all rows touched lie in the product-images
    bucket. *)
Theorem admin_has_full_access (db : database) (a : uuid) :
  role_of db a = Some "admin" →
  (∀ op, can db (Authenticated a) public_profiles op = true) ∧
  (∀ op, can db (Authenticated a) public_products op = true) ∧
  (∀ op, can db (Authenticated a) public_categories op = true) ∧
  (∀ op, can db (Authenticated a) public_orders op = true) ∧
  (∀ op : operation storage_object,
     (∀ o, o ∈ rows_of_operation op → object_bucket_id o = Some "product-images") →
     can db (Authenticated a) storage_objects op = true).
Proof.
  intros Hadm%is_admin_of_admin_role.
  repeat split; intros op.
  - rewrite can_profiles, Hadm. destruct op; by rewrite ?orb_true_r.
  - rewrite can_products, Hadm. by destruct op.
  - rewrite can_categories, Hadm. by destruct op.
  - rewrite can_orders, Hadm. destruct op; by rewrite ?orb_true_r.
  - intros Hin. unfold can. destruct (rls_enabled db storage_objects); [|done].
    rewrite rls_permits_storage, Hadm.
    assert (∀ o, o ∈ rows_of_operation op → in_bucket "product-images" o = true) as Hb.
    { intros o Ho. unfold in_bucket. by rewrite (Hin o Ho). }
    destruct op; cbn in Hb; rewrite ?Hb; try done; set_solver.
Qed.

Lemma admin_has_full_access_witness :
  role_of Sample.db "root" = Some "admin" ∧
  can Sample.db (Authenticated "root") public_profiles (Delete Sample.alice_row) = true ∧
  can Sample.db (Authenticated "root") public_orders
      (Update Sample.alice_order (mkOrder "o-1" "alice" "Shipped" 499900 1)) = true.
Proof.
  split; [reflexivity|].
  pose proof (admin_has_full_access Sample.db "root" eq_refl) as (H1 & _ & _ & H2 & _).
  split; [apply H1 | apply H2].
Defined.

(** X2. For a signed-in identity that is not an admin, products and
    categories are read-only: a select always passes, and an insert,
    update or delete never does. *)
Theorem catalog_is_read_only_for_non_admins
    (db : database) (u : uuid) (op : operation product) (op' : operation category) :
  is_admin db (Authenticated u) = false →
  (can db (Authenticated u) public_products op = true ↔ command_of op = SELECT) ∧
  (can db (Authenticated u) public_categories op' = true ↔ command_of op' = SELECT).
Proof.
  intros Hna. rewrite can_products, can_categories, Hna.
  split; [destruct op | destruct op']; cbn; split; done.
Qed.

Lemma catalog_is_read_only_for_non_admins_witness :
  is_admin Sample.db (Authenticated "alice") = false ∧
  (can Sample.db (Authenticated "alice") public_products (Delete Sample.shoe) = true ↔
   command_of (Delete Sample.shoe) = SELECT).
Proof.
  split; [reflexivity|].
  apply (catalog_is_read_only_for_non_admins Sample.db "alice" (Delete Sample.shoe)
           (Select (mkCategory "c1" "Sneakers")) eq_refl).
Defined.

(** X3. What a non-admin may do on profiles: read its own row, create its
    own row with role 'user', rewrite its own row to a row that is still
    its own and has role 'user'; nothing else, and never a delete. *)
Theorem profiles_for_non_admins (db : database) (u : uuid) (op : operation profile) :
  is_admin db (Authenticated u) = false →
  can db (Authenticated u) public_profiles op = true ↔
  match op with
  | Select r => profile_id r = u
  | Insert n => profile_id n = u ∧ profile_role n = "user"
  | Update o n => profile_id o = u ∧ profile_id n = u ∧ profile_role n = "user"
  | Delete _ => False
  end.
Proof.
  intros Hna. rewrite can_profiles, Hna. unfold has_id.
  destruct op; rewrite ?orb_false_r, ?andb_true_iff, ?String.eqb_eq; done.
Qed.

Lemma profiles_for_non_admins_witness :
  is_admin Sample.db (Authenticated "alice") = false ∧
  (can Sample.db (Authenticated "alice") public_profiles (Select Sample.root_row) = true ↔
   profile_id Sample.root_row = "alice").
Proof.
  split; [reflexivity|].
  apply (profiles_for_non_admins Sample.db "alice" (Select Sample.root_row) eq_refl).
Defined.

(** X4. What a non-admin may do on orders: read and create orders whose
    [user_id] is its own id; it can neither update nor delete any order,
    its own included. *)
Theorem orders_for_non_admins (db : database) (u : uuid) (op : operation order) :
  is_admin db (Authenticated u) = false →
  can db (Authenticated u) public_orders op = true ↔
  match op with
  | Select r | Insert r => order_user_id r = u
  | Update _ _ | Delete _ => False
  end.
Proof.
  intros Hna. rewrite can_orders, Hna.
  destruct op; rewrite ?orb_false_r, ?String.eqb_eq; done.
Qed.

Lemma orders_for_non_admins_witness :
  is_admin Sample.db (Authenticated "alice") = false ∧
  (can Sample.db (Authenticated "alice") public_orders (Delete Sample.alice_order) = true ↔
   False).
Proof.
  split; [reflexivity|].
  apply (orders_for_non_admins Sample.db "alice" (Delete Sample.alice_order) eq_refl).
Defined.

(** X5. Without a session nothing is allowed on the four public tables,
    and on storage objects, once row-level security is on, exactly the
    selects of objects in the product-images bucket. *)
Theorem anonymous_surface (db : database) :
  storage_objects_rls db = true →
  (∀ t op, t ≠ storage_objects → can db Anonymous t op = false) ∧
  (∀ op : operation storage_object,
     can db Anonymous storage_objects op = true ↔
     ∃ r, op = Select r ∧ object_bucket_id r = Some "product-images").
Proof.
  intros Hrls. split; [intros t op Ht; by apply can_anonymous_public|].
  intros op. unfold can, rls_enabled. rewrite Hrls, rls_permits_storage, is_admin_anonymous.
  assert (∀ r, in_bucket "product-images" r = true ↔
               object_bucket_id r = Some "product-images") as Hb.
  { intros r. unfold in_bucket. destruct (object_bucket_id r) as [b|]; [|done].
    rewrite sql_eq_some, String.eqb_eq. split; congruence. }
  destruct op; rewrite ?andb_false_r; cbn.
  - rewrite Hb. split; [intros H; by eexists | by intros (r & [= <-] & H)].
  - split; [done | by intros (r & [=] & _)].
  - split; [done | by intros (r & [=] & _)].
  - split; [done | by intros (r & [=] & _)].
Qed.

Lemma anonymous_surface_witness :
  storage_objects_rls Sample.db = true ∧
  can Sample.db Anonymous public_categories (Select (mkCategory "c1" "Sneakers")) = false.
Proof.
  split; [reflexivity|].
  apply (proj1 (anonymous_surface Sample.db eq_refl)). discriminate.
Defined.

(** X6. A decision for a signed-in caller reads the profiles table only
    through the rows carrying the caller's own id: two stored states that
    agree on those rows, and on whether storage is under row-level
    security, give the same decision for every table and operation. *)
Theorem decision_reads_only_own_profile
    (db db' : database) (u : uuid) (t : table) (op : operation (row_of t)) :
  rows_with_id u (profiles db) = rows_with_id u (profiles db') →
  storage_objects_rls db = storage_objects_rls db' →
  can db (Authenticated u) t op = can db' (Authenticated u) t op.
Proof.
  intros Hrows Hrls. apply can_depends_on_admin_test; [|done].
  by rewrite !is_admin_rows_with_id, Hrows.
Qed.

Lemma decision_reads_only_own_profile_witness :
  rows_with_id "alice" (profiles Sample.db)
  = rows_with_id "alice" (profiles (mkDb [Sample.alice_row] true)) ∧
  can Sample.db (Authenticated "alice") public_products (Insert Sample.shoe)
  = can (mkDb [Sample.alice_row] true) (Authenticated "alice") public_products
        (Insert Sample.shoe).
Proof.
  split; [reflexivity|].
  apply (decision_reads_only_own_profile Sample.db (mkDb [Sample.alice_row] true) "alice"
           public_products (Insert Sample.shoe)); reflexivity.
Defined.

(** X7. The admin test written inline in the product, order and storage
    policies runs under the caller's own read rights on profiles, and
    still gives the answer of the privileged [is_admin()]: every row that
    would make the caller an admin is a row the caller may read. *)
Theorem inline_admin_test_sees_own_row (db : database) (c : caller) :
  (∀ p, admin_row_of c p = true →
        rls_permits db c profiles_policies (Select p) = true) ∧
  admin_profile_exists db c = is_admin db c.
Proof.
  split; [|apply admin_profile_exists_is_admin].
  intros p. destruct c as [|u]; [by rewrite admin_row_of_anonymous|].
  rewrite admin_row_of_authenticated. intros [Hid _]%andb_true_iff.
  change (can db (Authenticated u) public_profiles (Select p) = true).
  rewrite can_profiles. unfold has_id. by rewrite Hid.
Qed.

(** ** Provisioning and access *)

Lemma admin_row_of_user_role (c : caller) (p : profile) :
  profile_role p = "user" → admin_row_of c p = false.
Proof.
  intros Hr. destruct c; [apply admin_row_of_anonymous|].
  rewrite admin_row_of_authenticated, Hr. apply andb_false_r.
Qed.

Lemma is_admin_app_user (db : database) (c : caller) (p : profile) :
  profile_role p = "user" →
  is_admin (mkDb (profiles db ++ [p]) (storage_objects_rls db)) c = is_admin db c.
Proof.
  intros Hr. unfold is_admin. cbn [profiles]. rewrite existsb_app. cbn [existsb].
  rewrite (admin_row_of_user_role c p Hr). by rewrite !orb_false_r.
Qed.

Lemma upsert_profile_shape (db db' : database) (c : caller) (j : uuid) (e : option string) :
  upsert_profile db c j e = Ok db' →
  (role_of db j = None ∧
   db' = mkDb (profiles db ++ [mkProfile j e "user"]) (storage_objects_rls db)) ∨
  db' = mkDb ((fun p => if has_id j p then set_email e p else p) <$> profiles db)
             (storage_objects_rls db).
Proof.
  unfold upsert_profile.
  destruct (negb (passes_check db c profiles_policies INSERT _)); [done|].
  cbn [profile_role role_check String.eqb Ascii.eqb Bool.eqb orb negb].
  destruct (rows_with_id j (profiles db)) as [|old rest] eqn:Hrows.
  - destruct (email_taken e (profiles db)); [done|]. intros [= <-]. left.
    split; [by apply role_of_None_iff | done].
  - destruct (negb (passes_using _ _ _ _ _)); [done|].
    destruct (negb (passes_check _ _ _ _ _)); [done|].
    destruct (email_taken _ _); [done|]. intros [= <-]. by right.
Qed.

Lemma set_email_map_facts (j : uuid) (e : option string) (ps : list profile) :
  profile_id <$> ((fun p => if has_id j p then set_email e p else p) <$> ps)
    = profile_id <$> ps ∧
  profile_role <$> ((fun p => if has_id j p then set_email e p else p) <$> ps)
    = profile_role <$> ps.
Proof.
  rewrite <- !list_fmap_compose.
  split; apply list_fmap_ext; intros ? p _; cbn; by destruct (has_id j p).
Qed.

Lemma upsert_profile_keeps_admins (db db' : database) (c c' : caller) (j : uuid)
    (e : option string) :
  upsert_profile db c j e = Ok db' →
  is_admin db' c' = is_admin db c' ∧
  storage_objects_rls db' = storage_objects_rls db ∧
  (profiles_wf db → profiles_wf db').
Proof.
  intros [[Hnone ->]| ->]%upsert_profile_shape.
  - split; [by apply is_admin_app_user|]. split; [done|].
    intros Hwf. by apply profiles_wf_app_fresh.
  - split; [|split; [done|]].
    + unfold is_admin. cbn [profiles].
      induction (profiles db) as [|p ps IH]; [done|].
      rewrite fmap_cons. cbn [existsb]. rewrite IH. f_equal.
      destruct (has_id j p); [|done]. by destruct c'.
    + intros [Hnd Hall]. destruct (set_email_map_facts j e (profiles db)) as [Hid Hrole].
      split; cbn [profiles]; [by rewrite Hid|].
      rewrite Forall_forall in *. intros p (q & -> & Hq)%list_elem_of_fmap.
      specialize (Hall q Hq). by destruct (has_id j q).
Qed.

(** X8. The provisioning trigger only ever appends: the rows already
    stored stay as they are, the table keeps its primary key and its role
    constraint, nobody's admin status changes, and therefore no access
    decision for any caller, table or operation changes. *)
Theorem provisioning_changes_no_decision (db db1 : database) (new : auth_user) :
  handle_new_user db new = Ok db1 →
  (∃ added : list profile, profiles db1 = (profiles db ++ added)%list) ∧
  (profiles_wf db → profiles_wf db1) ∧
  (∀ c, is_admin db1 c = is_admin db c) ∧
  (∀ c t op, can db1 c t op = can db c t op).
Proof.
  intros Hrun.
  destruct (handle_new_user_cases db new) as [[_ H]|[(Hnone & _ & H)|(_ & _ & H)]];
    rewrite H in Hrun; [| |done]; injection Hrun as <-.
  - split; [exists []; by rewrite app_nil_r|]. done.
  - split; [by eexists|]. split; [intros Hwf; by apply profiles_wf_app_fresh|].
    split; [intros c; by apply is_admin_app_user|].
    intros c t op. apply can_depends_on_admin_test; [by apply is_admin_app_user | done].
Qed.

Lemma provisioning_changes_no_decision_witness :
  handle_new_user Sample.db (mkAuthUser "bob" None)
  = Ok (mkDb [Sample.root_row; Sample.alice_row; mkProfile "bob" None "user"] true) ∧
  is_admin (mkDb [Sample.root_row; Sample.alice_row; mkProfile "bob" None "user"] true)
           (Authenticated "bob")
  = is_admin Sample.db (Authenticated "bob").
Proof.
  split; [reflexivity|].
  apply (provisioning_changes_no_decision Sample.db _ (mkAuthUser "bob" None) eq_refl).
Defined.

(** X9. Whatever [ensureUserProfile] is called with and whatever the
    network does, it changes nobody's admin status and no access decision,
    and the stored table keeps its primary key and role constraint: the
    client's upsert cannot be used to gain a privilege. *)
Theorem ensureUserProfile_changes_no_decision
    (supabase : option Client.supabase_client) (authUser : option Client.supabase_user)
    (net : Client.transport) (db : database) (w : Client.settled Client.world) :
  Client.ensureUserProfile supabase authUser net db = Some w →
  (profiles_wf db → profiles_wf (Client.store (Client.value w))) ∧
  (∀ c, is_admin (Client.store (Client.value w)) c = is_admin db c) ∧
  (∀ c t op, can (Client.store (Client.value w)) c t op = can db c t op).
Proof.
  unfold Client.ensureUserProfile.
  destruct supabase as [client|], authUser as [u|]; try (by intros [= <-]).
  destruct (Client.no_id (Some u)); [by intros [= <-]|].
  destruct net as [ms|ms m|]; [|by intros [= <-]|done].
  destruct (upsert_profile db (Client.session client) (Client.id u) (Client.email u))
    as [db'|err] eqn:E; intros [= <-]; [|done]. cbn [Client.value Client.store].
  split; [apply (upsert_profile_keeps_admins _ _ _ Anonymous _ _ E)|].
  split; [intros c; apply (upsert_profile_keeps_admins _ _ _ c _ _ E)|].
  intros c t op. apply can_depends_on_admin_test;
    apply (upsert_profile_keeps_admins _ _ _ c _ _ E).
Qed.

Lemma ensureUserProfile_changes_no_decision_witness :
  Client.ensureUserProfile (Some (Client.mkClient (Authenticated "bob")))
    (Some (Client.mkUser "bob" None)) (Client.Delivered 10) Sample.db
  = Some (Client.Settled 10
            (Client.mkWorld
               (mkDb [Sample.root_row; Sample.alice_row; mkProfile "bob" None "user"] true)
               [])) ∧
  can (mkDb [Sample.root_row; Sample.alice_row; mkProfile "bob" None "user"] true)
      (Authenticated "bob") public_products (Insert Sample.shoe)
  = can Sample.db (Authenticated "bob") public_products (Insert Sample.shoe).
Proof.
  split; [reflexivity|].
  apply (ensureUserProfile_changes_no_decision
           (Some (Client.mkClient (Authenticated "bob"))) (Some (Client.mkUser "bob" None))
           (Client.Delivered 10) Sample.db _ eq_refl).
Defined.

(** X10. [ensureUserProfile] writes nothing unless the request carries the
    session of the very identity it provisions, or of an admin: for any
    other session, and without a session, the stored table is unchanged. *)
Theorem ensureUserProfile_needs_own_session
    (client : Client.supabase_client) (u : Client.supabase_user)
    (net : Client.transport) (db : database) (w : Client.settled Client.world) :
  is_admin db (Client.session client) = false →
  Client.session client ≠ Authenticated (Client.id u) →
  Client.ensureUserProfile (Some client) (Some u) net db = Some w →
  Client.store (Client.value w) = db.
Proof.
  intros Hna Hother. unfold Client.ensureUserProfile.
  destruct (Client.no_id (Some u)); [by intros [= <-]|].
  destruct net as [t|t m|]; [|by intros [= <-]|done].
  assert (upsert_profile db (Client.session client) (Client.id u) (Client.email u)
          = Error insufficient_privilege) as ->; [|by intros [= <-]].
  unfold upsert_profile.
  change (passes_check db (Client.session client) profiles_policies INSERT ?n)
    with (can db (Client.session client) public_profiles (Insert n)).
  destruct (Client.session client) as [|v] eqn:Hs.
  - by rewrite can_anonymous_public.
  - rewrite can_profiles, Hna. unfold has_id. cbn [profile_id].
    assert (String.eqb (Client.id u) v = false) as ->; [|done].
    apply String.eqb_neq. congruence.
Qed.

Lemma ensureUserProfile_needs_own_session_witness :
  is_admin Sample.db (Authenticated "alice") = false ∧
  Client.store
    (Client.value
       (Client.Settled 10 (Client.mkWorld Sample.db ["Failed to ensure profile: 42501"])))
  = Sample.db.
Proof.
  split; [reflexivity|].
  apply (ensureUserProfile_needs_own_session (Client.mkClient (Authenticated "alice"))
           (Client.mkUser "bob" None) (Client.Delivered 10) Sample.db);
    [reflexivity | discriminate | reflexivity].
Defined.

(* ===================================================================== *)
(** * Part VII: further properties of the client                          *)
(* ===================================================================== *)

(** ** The role lookup *)

Lemma role_of_data_range (role : string) :
  role_of_data role = ROLE_USER ∨ role_of_data role = ROLE_ADMIN.
Proof.
  unfold role_of_data.
  destruct (String.eqb (toLowerCase _) ROLE_ADMIN); [by right | by left].
Qed.

Lemma role_of_data_checked (role : string) :
  role_check role = true → role_of_data role = role.
Proof.
  unfold role_check. intros [H|H]%orb_true_iff; apply String.eqb_eq in H; by subst.
Qed.

Lemma role_of_member (db : database) (p : profile) :
  profiles_wf db → p ∈ profiles db → role_of db (profile_id p) = Some (profile_role p).
Proof.
  intros [Hnd _] Hp.
  assert (p ∈ rows_with_id (profile_id p) (profiles db)) as Hin
    by by apply elem_of_rows_with_id.
  pose proof (primary_key_at_most_one (profile_id p) (profiles db) Hnd) as Hle.
  unfold role_of. destruct (rows_with_id (profile_id p) (profiles db)) as [|q [|q' qs]].
  - by apply elem_of_nil in Hin.
  - apply list_elem_of_singleton in Hin. by subst.
  - cbn in Hle. lia.
Qed.

(** The rows a lookup by id returns, under the primary key: the stored
    role when the caller may read the row, nothing otherwise. *)
Lemma select_role_by_id_wf (db : database) (c : caller) (i : uuid) :
  profiles_wf db →
  select_role_by_id db c i = [] ∨
  ∃ r, select_role_by_id db c i = [r] ∧ role_of db i = Some r ∧ role_check r = true.
Proof.
  intros Hwf. unfold select_role_by_id.
  destruct (List.filter _ (profiles db)) as [|p ps] eqn:E; [by left|]. right.
  assert (∀ q, q ∈ p :: ps → q ∈ rows_with_id i (profiles db)) as Hsub.
  { intros q Hq. rewrite <- E in Hq.
    apply list_elem_of_In, filter_In in Hq as [Hq Hc].
    apply andb_true_iff in Hc as [_ Hc]. apply String.eqb_eq in Hc.
    apply elem_of_rows_with_id. by rewrite list_elem_of_In. }
  assert (p ∈ profiles db ∧ profile_id p = i) as [Hp Hid]
    by (apply elem_of_rows_with_id, Hsub; left).
  assert (ps = []) as ->.
  { destruct ps as [|q qs]; [done|]. exfalso.
    assert (List.filter
              (fun p => rls_permits db c profiles_policies (Select p) && has_id i p)
              (profiles db) ⊆+ rows_with_id i (profiles db)) as Hsl.
    { unfold rows_with_id. clear. induction (profiles db) as [|x xs IH]; [done|].
      cbn [List.filter]. destruct (has_id i x); rewrite ?andb_false_r, ?andb_true_r.
      - destruct (rls_permits db c profiles_policies (Select x));
          [by constructor | by apply submseteq_cons].
      - done. }
    apply submseteq_length in Hsl. rewrite E in Hsl. cbn in Hsl.
    pose proof (primary_key_at_most_one i (profiles db) (proj1 Hwf)). lia. }
  exists (profile_role p). split; [done|]. split.
  - rewrite <- Hid. by apply role_of_member.
  - destruct Hwf as [_ Hall]. rewrite Forall_forall in Hall. by apply Hall.
Qed.

Lemma getUserRole_range
    (supabase : option supabase_client) (authUser : option supabase_user)
    (net_select net_upsert : transport) (db : database)
    (r : settled (string * world)) :
  getUserRole supabase authUser net_select net_upsert db = Some r →
  (value r).1 = "user" ∨ (value r).1 = "admin".
Proof.
  unfold getUserRole.
  destruct supabase as [client|], authUser as [u|]; try (intros [= <-]; by left).
  destruct (no_id (Some u)); [intros [= <-]; by left|].
  destruct (select_role_maybe_single db (session client) (id u) net_select)
    as [[t [role| |m]]|]; cbn -[ensureUserProfile]; [| | |done].
  - intros [= <-]. apply role_of_data_range.
  - destruct (ensureUserProfile (Some client) (Some u) net_upsert db);
      cbn; [intros [= <-]; by left | done].
  - intros [= <-]. by left.
Qed.

(** A lookup by id returns nothing to a session that may not read the
    rows with that id. *)
Lemma select_role_by_id_hidden (db : database) (c : caller) (i : uuid) :
  is_admin db c = false → c ≠ Authenticated i → select_role_by_id db c i = [].
Proof.
  intros Hna Hother. unfold select_role_by_id.
  destruct (List.filter _ (profiles db)) as [|p ps] eqn:E; [done|]. exfalso.
  assert (In p (p :: ps)) as Hp by by left. rewrite <- E in Hp.
  apply filter_In in Hp as [_ Hc]. apply andb_true_iff in Hc as [Hread Hid].
  apply String.eqb_eq in Hid.
  change (can db c public_profiles (Select p) = true) in Hread.
  destruct c as [|v]; [by rewrite can_anonymous_public in Hread|].
  rewrite can_profiles, Hna, orb_false_r in Hread. unfold has_id in Hread.
  apply String.eqb_eq in Hread. congruence.
Qed.

Lemma getUserRole_sound
    (supabase : option supabase_client) (authUser : option supabase_user)
    (net_select net_upsert : transport) (db : database)
    (r : settled (string * world)) :
  profiles_wf db →
  getUserRole supabase authUser net_select net_upsert db = Some r →
  (value r).1 = "user" ∨
  ((value r).1 = "admin" ∧ ∃ u, authUser = Some u ∧ role_of db (id u) = Some "admin").
Proof.
  intros Hwf. unfold getUserRole.
  destruct supabase as [client|], authUser as [u|]; try (intros [= <-]; by left).
  destruct (no_id (Some u)); [intros [= <-]; by left|].
  unfold select_role_maybe_single.
  destruct net_select as [t|t m|]; [|intros [= <-]; by left|done].
  destruct (select_role_by_id_wf db (session client) (id u) Hwf) as [->|(x & -> & Hx & Hc)].
  - cbn -[ensureUserProfile].
    destruct (ensureUserProfile (Some client) (Some u) net_upsert db);
      cbn; [intros [= <-]; by left | done].
  - cbn. intros [= <-]. cbn. rewrite (role_of_data_checked x Hc).
    unfold role_check in Hc. apply orb_true_iff in Hc as [H|H];
      apply String.eqb_eq in H; subst x; [by left|right].
    split; [done|]. by exists u.
Qed.

(** X11. [getUserRole] answers 'user' or 'admin' and nothing else, and
    over a table that satisfies its constraints it answers 'admin' only
    when the stored role of the looked-up identity is 'admin' and the
    session may read that row: its own, or an admin's. *)
Theorem getUserRole_admin_only_if_stored
    (supabase : option supabase_client) (authUser : option supabase_user)
    (net_select net_upsert : transport) (db : database)
    (r : settled (string * world)) :
  profiles_wf db →
  getUserRole supabase authUser net_select net_upsert db = Some r →
  (value r).1 = "user" ∨
  ((value r).1 = "admin" ∧
   ∃ client u, supabase = Some client ∧ authUser = Some u ∧
               role_of db (id u) = Some "admin" ∧
               (session client = Authenticated (id u) ∨
                is_admin db (session client) = true)).
Proof.
  intros Hwf Hrun.
  destruct (getUserRole_sound _ _ _ _ _ r Hwf Hrun) as [H|(Hadmin & u & -> & Hrole)];
    [by left|].
  destruct supabase as [client|]; [|injection Hrun as <-; by left].
  assert (session client = Authenticated (id u) ∨ session client ≠ Authenticated (id u))
    as [Hs|Hs].
  { destruct (session client) as [|v]; [by right|].
    destruct (String.eqb_spec v (id u)) as [->|Hv]; [by left | right; congruence]. }
  { right. split; [done|]. exists client, u. auto. }
  destruct (is_admin db (session client)) eqn:Hna;
    [right; split; [done|]; exists client, u; auto|].
  left. revert Hrun. unfold getUserRole.
  destruct (no_id (Some u)); [by intros [= <-]|].
  unfold select_role_maybe_single.
  rewrite (select_role_by_id_hidden db (session client) (id u) Hna Hs).
  destruct net_select as [t|t m|]; cbn -[ensureUserProfile]; [|by intros [= <-]|done].
  destruct (ensureUserProfile (Some client) (Some u) net_upsert db);
    cbn; [by intros [= <-] | done].
Qed.

Lemma getUserRole_admin_only_if_stored_witness :
  profiles_wf Sample.db ∧
  getUserRole (Some (mkClient (Authenticated "root"))) (Some Sample.root_user)
    (Delivered 5) Hangs Sample.db
  = Some (Settled 5 ("admin", mkWorld Sample.db [])) ∧
  role_of Sample.db "root" = Some "admin".
Proof.
  split; [exact sample_db_wf|]. split; [reflexivity|].
  destruct (getUserRole_admin_only_if_stored
              (Some (mkClient (Authenticated "root"))) (Some Sample.root_user)
              (Delivered 5) Hangs Sample.db _ sample_db_wf eq_refl)
    as [H|(_ & c & u & _ & [= <-] & H & _)]; [discriminate H | exact H].
Defined.

Lemma getUserRole_own_role
    (client : supabase_client) (u : supabase_user) (t : nat) (net_upsert : transport)
    (db : database) (role : string) :
  profiles_wf db →
  id u ≠ "" →
  session client = Authenticated (id u) →
  role_of db (id u) = Some role →
  getUserRole (Some client) (Some u) (Delivered t) net_upsert db
  = Some (Settled t (role, mkWorld db [])).
Proof.
  intros Hwf Hid Hs Hrole. unfold getUserRole, no_id.
  apply String.eqb_neq in Hid as ->. unfold select_role_maybe_single.
  destruct (select_role_by_id_wf db (session client) (id u) Hwf) as [Hnil|(x & -> & Hx & Hc)].
  - exfalso. apply role_of_Some in Hrole as (p & Hp & Hpid & _).
    assert (In p (List.filter
                    (fun p => rls_permits db (session client) profiles_policies (Select p)
                              && has_id (id u) p) (profiles db))) as Hin.
    { apply filter_In. split; [by apply list_elem_of_In|].
      rewrite Hs. change (can db (Authenticated (id u)) public_profiles (Select p)
                          && has_id (id u) p = true).
      rewrite can_profiles. unfold has_id. by rewrite Hpid, String.eqb_refl. }
    unfold select_role_by_id in Hnil.
    destruct (List.filter _ (profiles db)); [done | discriminate Hnil].
  - cbn. rewrite (role_of_data_checked x Hc), Nat.add_0_r. congruence.
Qed.

(** X12. When an identity looks up its own role and the request is
    answered, [getUserRole] returns exactly the stored role, at the time
    of the answer, and leaves the table alone; wrapped in the timeout it
    still does so whenever the answer arrives before the deadline. *)
Theorem getUserRole_returns_stored_role
    (client : supabase_client) (u : supabase_user) (t : nat) (net_upsert : transport)
    (db : database) (role : string) :
  profiles_wf db →
  id u ≠ "" →
  session client = Authenticated (id u) →
  role_of db (id u) = Some role →
  getUserRole (Some client) (Some u) (Delivered t) net_upsert db
  = Some (Settled t (role, mkWorld db [])) ∧
  (∀ timeoutMs tie,
     (t < default ROLE_FETCH_TIMEOUT_MS timeoutMs)%nat →
     getUserRoleWithTimeout (Some client) (Some u) timeoutMs (Delivered t) net_upsert tie db
     = Settled t role).
Proof.
  intros Hwf Hid Hs Hrole.
  pose proof (getUserRole_own_role client u t net_upsert db role Hwf Hid Hs Hrole) as Hrun.
  split; [done|]. intros timeoutMs tie Hlt.
  unfold getUserRoleWithTimeout. rewrite Hrun.
  cbn [await resolved value at_ms race_with_timer fst]. rewrite Nat.add_0_r.
  by apply Nat.ltb_lt in Hlt as ->.
Qed.

Lemma getUserRole_returns_stored_role_witness :
  profiles_wf Sample.db ∧
  getUserRole (Some (mkClient (Authenticated "alice")))
    (Some (mkUser "alice" None)) (Delivered 7) Hangs Sample.db
  = Some (Settled 7 ("user", mkWorld Sample.db [])).
Proof.
  split; [exact sample_db_wf|].
  apply (proj1 (getUserRole_returns_stored_role (mkClient (Authenticated "alice"))
                  (mkUser "alice" None) 7 Hangs Sample.db "user" sample_db_wf
                  ltac:(discriminate) eq_refl eq_refl)).
Defined.

(** X13. An identity without a profile row that looks up its own role
    gets the row created on the way: when both requests are answered and
    the email is free, [getUserRole] returns 'user' after the two
    latencies and the table then holds the row with role 'user'. *)
Theorem getUserRole_creates_missing_profile
    (client : supabase_client) (u : supabase_user) (t1 t2 : nat) (db : database) :
  id u ≠ "" →
  session client = Authenticated (id u) →
  role_of db (id u) = None →
  email_taken (email u) (profiles db) = false →
  getUserRole (Some client) (Some u) (Delivered t1) (Delivered t2) db
  = Some (Settled (t1 + t2)
            ("user",
             mkWorld (mkDb (profiles db ++ [mkProfile (id u) (email u) "user"])
                           (storage_objects_rls db)) [])) ∧
  role_of (mkDb (profiles db ++ [mkProfile (id u) (email u) "user"])
                (storage_objects_rls db)) (id u) = Some "user".
Proof.
  intros Hid Hs Hnone Htaken. split; [|by apply role_of_app_fresh].
  unfold getUserRole, no_id. pose proof Hid as Hid'.
  apply String.eqb_neq in Hid' as ->. unfold select_role_maybe_single.
  assert (select_role_by_id db (session client) (id u) = []) as ->.
  { unfold select_role_by_id.
    destruct (List.filter _ (profiles db)) as [|p ps] eqn:E; [done|]. exfalso.
    assert (In p (p :: ps)) as Hp by by left. rewrite <- E in Hp.
    apply filter_In in Hp as [Hin Hc]. apply andb_true_iff in Hc as [_ Hc].
    apply String.eqb_eq in Hc.
    apply (role_of_None db (id u) p); [done | by apply list_elem_of_In | done]. }
  unfold await at 1. cbn [value at_ms].
  unfold ensureUserProfile, no_id. apply String.eqb_neq in Hid as ->.
  unfold upsert_profile.
  change (passes_check db (session client) profiles_policies INSERT ?n)
    with (can db (session client) public_profiles (Insert n)).
  rewrite Hs, can_profiles. unfold has_id at 1. cbn [profile_id profile_role].
  rewrite !String.eqb_refl. cbn [andb orb negb role_check].
  apply role_of_None_iff in Hnone. rewrite Hnone, Htaken. cbn.
  by rewrite Nat.add_0_r.
Qed.

Lemma getUserRole_creates_missing_profile_witness :
  role_of Sample.db "bob" = None ∧
  role_of (mkDb (profiles Sample.db ++ [mkProfile "bob" None "user"]) true) "bob"
  = Some "user".
Proof.
  split; [reflexivity|].
  apply (getUserRole_creates_missing_profile (mkClient (Authenticated "bob"))
           (mkUser "bob" None) 80 50 Sample.db);
    [discriminate | reflexivity | reflexivity | reflexivity].
Defined.

(** X14. [getUserRoleWithTimeout] always resolves, no later than the
    timeout, to 'user' or 'admin'; and when the lookup settles strictly
    before the timeout the result is the lookup's, at the lookup's time. *)
Theorem getUserRoleWithTimeout_bounded
    (supabase : option supabase_client) (authUser : option supabase_user)
    (timeoutMs : option nat) (net_select net_upsert : transport) (tie : bool)
    (db : database) :
  (at_ms (getUserRoleWithTimeout supabase authUser timeoutMs net_select net_upsert tie db)
   ≤ default ROLE_FETCH_TIMEOUT_MS timeoutMs)%nat ∧
  (value (getUserRoleWithTimeout supabase authUser timeoutMs net_select net_upsert tie db)
   = "user" ∨
   value (getUserRoleWithTimeout supabase authUser timeoutMs net_select net_upsert tie db)
   = "admin") ∧
  (∀ r, getUserRole supabase authUser net_select net_upsert db = Some r →
        (at_ms r < default ROLE_FETCH_TIMEOUT_MS timeoutMs)%nat →
        getUserRoleWithTimeout supabase authUser timeoutMs net_select net_upsert tie db
        = Settled (at_ms r) (value r).1).
Proof.
  unfold getUserRoleWithTimeout.
  assert (∀ r, getUserRole supabase authUser net_select net_upsert db = Some r →
               (value r).1 = "user" ∨ (value r).1 = "admin") as Hrange
    by (intros r; apply getUserRole_range).
  destruct (getUserRole supabase authUser net_select net_upsert db) as [r|] eqn:E;
    cbn [await resolved value at_ms race_with_timer].
  - rewrite Nat.add_0_r. specialize (Hrange r eq_refl).
    destruct (Nat.ltb_spec (at_ms r) (default ROLE_FETCH_TIMEOUT_MS timeoutMs)).
    + cbn. split; [lia|]. split; [done|]. by intros ? [= <-] _.
    + destruct (Nat.eqb_spec (at_ms r) (default ROLE_FETCH_TIMEOUT_MS timeoutMs)), tie;
        cbn; (split; [lia|]); (split; [auto|]); intros ? [= <-] ?; lia.
  - split; [done|]. split; [by left | done].
Qed.

(** X26. The admin role reaches the view state only from the table: when
    the auth listener, run while the component is mounted over a table
    that satisfies its constraints, leaves 'admin' in [userRole], the
    event carried a user whose stored role is 'admin'.  Timeouts, network
    failures and missing rows can only yield 'user'. *)
Theorem admin_view_only_for_stored_admin
    (client : supabase_client) (mounted_later : bool) (session_user : option supabase_user)
    (net_select net_upsert : transport) (tie : bool) (db : database) (st : app_state) :
  profiles_wf db →
  userRole (onAuthStateChange client true mounted_later session_user
              net_select net_upsert tie db st) = "admin" →
  ∃ u, session_user = Some u ∧ role_of db (id u) = Some "admin".
Proof.
  intros Hwf. unfold onAuthStateChange. cbn [negb].
  destruct session_user as [u|]; [|done].
  destruct mounted_later; cbn [negb userRole]; [|done].
  unfold getUserRoleWithTimeout.
  destruct (getUserRole (Some client) (Some u) net_select net_upsert db) as [r|] eqn:E;
    cbn [await resolved value at_ms race_with_timer default]; [|done].
  intros Hadmin.
  assert ((value r).1 = "admin") as Hr.
  { revert Hadmin. destruct (_ <? _)%nat; [done|]. by destruct (_ && _). }
  destruct (getUserRole_sound _ _ _ _ _ r Hwf E) as [Hu|(_ & u' & [= <-] & H)].
  - rewrite Hu in Hr. discriminate Hr.
  - by exists u.
Qed.

Lemma admin_view_only_for_stored_admin_witness :
  profiles_wf Sample.db ∧
  userRole (onAuthStateChange (mkClient (Authenticated "root")) true true
              (Some Sample.root_user) (Delivered 30) Hangs true Sample.db
              (mkApp None "user" false)) = "admin" ∧
  ∃ u, Some Sample.root_user = Some u ∧ role_of Sample.db (id u) = Some "admin".
Proof.
  split; [exact sample_db_wf|]. split; [reflexivity|].
  apply (admin_view_only_for_stored_admin (mkClient (Authenticated "root")) true
           (Some Sample.root_user) (Delivered 30) Hangs true Sample.db
           (mkApp None "user" false) sample_db_wf eq_refl).
Defined.

(** X27. Sign-up and first lookup fit together: once the trigger has
    created the profile of a new identity, that identity's own lookup,
    when answered, returns 'user' and sends no upsert. *)
Theorem new_identity_looks_up_user
    (db db1 : database) (new : auth_user) (client : supabase_client) (e : option string)
    (t : nat) (net_upsert : transport) :
  profiles_wf db →
  user_id new ≠ "" →
  role_of db (user_id new) = None →
  handle_new_user db new = Ok db1 →
  session client = Authenticated (user_id new) →
  getUserRole (Some client) (Some (mkUser (user_id new) e)) (Delivered t) net_upsert db1
  = Some (Settled t ("user", mkWorld db1 [])).
Proof.
  intros Hwf Hid Hnone Hrun Hs.
  destruct (handle_new_user_cases db new) as [[Hsome _]|[(_ & _ & H)|(_ & _ & H)]];
    [done| |congruence].
  rewrite H in Hrun. injection Hrun as <-.
  apply getUserRole_own_role; [|done|done|].
  - by apply profiles_wf_app_fresh.
  - by apply (role_of_app_fresh db (user_id new) (mkProfile (user_id new) (user_email new) "user")).
Qed.

Lemma new_identity_looks_up_user_witness :
  profiles_wf Sample.db ∧
  getUserRole (Some (mkClient (Authenticated "bob"))) (Some (mkUser "bob" None))
    (Delivered 9) Hangs
    (mkDb [Sample.root_row; Sample.alice_row; mkProfile "bob" None "user"] true)
  = Some (Settled 9
            ("user",
             mkWorld (mkDb [Sample.root_row; Sample.alice_row; mkProfile "bob" None "user"]
                           true) [])).
Proof.
  split; [exact sample_db_wf|].
  apply (new_identity_looks_up_user Sample.db _ (mkAuthUser "bob" None)
           (mkClient (Authenticated "bob")) None 9 Hangs sample_db_wf);
    [discriminate | reflexivity | reflexivity | reflexivity].
Defined.

(** ** Orders as shown *)

(** X28. What [normalizeOrder] guarantees for display: the email shown is
    never empty or missing (it falls back to "Unknown"); the user id is
    either a usable value or [null]; and the item count is taken from
    [items_count] whenever that column is present, even when it is 0 and
    [items] says otherwise. *)
Theorem normalizeOrder_display_fields
    (rt : runtime) (order : object) (fallback : option object) :
  truthy (view_userEmail (normalizeOrder rt order fallback)) = true ∧
  (view_userId (normalizeOrder rt order fallback) = JNull ∨
   truthy (view_userId (normalizeOrder rt order fallback)) = true) ∧
  (get order "items_count" ≠ JUndefined → get order "items_count" ≠ JNull →
   view_items (normalizeOrder rt order fallback)
   = number_or_zero rt (get order "items_count")).
Proof.
  cbn [normalizeOrder view_userEmail view_userId view_items].
  assert (∀ a b, truthy b = true → truthy (js_or a b) = true) as Hor.
  { intros a b Hb. unfold js_or. by destruct (truthy a) eqn:E. }
  split; [by apply Hor|]. split.
  - generalize (js_or (get order "user_id") (get (default ∅ fallback) "userId")).
    intros v. unfold js_or. destruct (truthy v) eqn:E; [by right | by left].
  - intros H1 H2. by destruct (get order "items_count").
Qed.

(** ** Products *)

Lemma number_or_zero_fixed (rt : runtime) (v : jsval) :
  number_or_zero rt (JNumber (number_or_zero rt v)) = number_or_zero rt v.
Proof.
  unfold number_or_zero. cbn [ToNumber].
  destruct (number_truthy (ToNumber rt v)) eqn:E; [by rewrite E | done].
Qed.

(** X15. [normalizeProduct] gives every product a string id and a price
    that is a number and not NaN, keeps all other fields, and changes
    nothing when applied a second time. *)
Theorem normalizeProduct_idempotent (rt : runtime) (product : object) :
  normalizeProduct rt (normalizeProduct rt product) = normalizeProduct rt product ∧
  (∃ s, get (normalizeProduct rt product) "id" = JString s) ∧
  (∃ n, get (normalizeProduct rt product) "price" = JNumber n ∧ n ≠ S754_nan) ∧
  (∀ k, k ≠ "id" → k ≠ "price" → normalizeProduct rt product !! k = product !! k).
Proof.
  assert (get (normalizeProduct rt product) "price"
          = JNumber (number_or_zero rt (get product "price"))) as Hprice.
  { unfold normalizeProduct, get. by rewrite lookup_insert_eq. }
  assert (get (normalizeProduct rt product) "id"
          = JString (ToString rt (get product "id"))) as Hid.
  { unfold normalizeProduct, get. rewrite lookup_insert_ne by done.
    by rewrite lookup_insert_eq. }
  split; [|split; [by eexists|split]].
  - unfold normalizeProduct at 1. rewrite Hprice, Hid, number_or_zero_fixed.
    cbn [ToString]. unfold normalizeProduct. apply map_eq. intros k.
    destruct (decide (k = "price")) as [->|Hp]; [by rewrite !lookup_insert_eq|].
    rewrite !(lookup_insert_ne _ "price") by done.
    destruct (decide (k = "id")) as [->|Hi]; [by rewrite !lookup_insert_eq|].
    repeat (rewrite lookup_insert_ne by done). done.
  - eexists. split; [exact Hprice | apply number_or_zero_not_nan].
  - intros k Hi Hp. unfold normalizeProduct. by rewrite !lookup_insert_ne.
Qed.

(** ** The cart *)

Lemma decreaseQty_cons (id x : string) (rest : list string) :
  decreaseQty id (x :: rest) = if String.eqb x id then rest else x :: decreaseQty id rest.
Proof.
  unfold decreaseQty. cbn [indexOf]. destruct (String.eqb x id); [done|].
  by destruct (indexOf rest id).
Qed.

(** X16. [decreaseQty] takes exactly one unit of the product out of the
    cart: the number of entries of that id drops by one (staying at zero
    when there is none, in which case the cart is returned as it is), the
    count of every other id is unchanged, and the remaining entries keep
    their order. *)
Theorem decreaseQty_takes_one_unit (id x : string) (prev : list string) :
  count_occ string_dec (decreaseQty id prev) x
  = (if String.eqb x id then Nat.pred (count_occ string_dec prev id)
     else count_occ string_dec prev x) ∧
  (id ∉ prev → decreaseQty id prev = prev) ∧
  sublist (decreaseQty id prev) prev.
Proof.
  induction prev as [|y rest (IH1 & IH2 & IH3)].
  - cbn. split; [by destruct (String.eqb x id)|]. done.
  - rewrite decreaseQty_cons. destruct (String.eqb_spec y id) as [->|Hy].
    + split; [|split].
      * cbn [count_occ]. destruct (string_dec id id); [|done]. cbn [Nat.pred].
        destruct (String.eqb_spec x id) as [->|Hx]; [done|].
        by destruct (string_dec id x); [congruence|].
      * intros Hnot. exfalso. apply Hnot. left.
      * by apply sublist_cons.
    + split; [|split].
      * cbn [count_occ]. rewrite IH1.
        destruct (String.eqb_spec x id) as [->|Hx].
        -- by destruct (string_dec y id).
        -- done.
      * intros Hnot. f_equal. apply IH2. intros Hin. apply Hnot. by right.
      * by apply sublist_skip.
Qed.

(** X17. Adding a unit and taking one out leaves the cart with the same
    contents: the result is a rearrangement of the cart before, it is the
    very same list when the product was not in the cart, and in general it
    need not be, because the unit taken out is the first one while the one
    added went to the end. *)
Theorem increase_then_decrease (id : string) (prev : list string) :
  decreaseQty id (increaseQty id prev) ≡ₚ prev ∧
  (id ∉ prev → decreaseQty id (increaseQty id prev) = prev) ∧
  decreaseQty "a" (increaseQty "a" ["a"; "b"]) = ["b"; "a"].
Proof.
  unfold increaseQty. split; [|split; [|done]].
  - induction prev as [|y rest IH].
    + cbn. unfold decreaseQty. cbn. by rewrite String.eqb_refl.
    + rewrite <- app_comm_cons, decreaseQty_cons.
      destruct (String.eqb_spec y id) as [->|Hy].
      * symmetry. apply Permutation_cons_append.
      * by constructor.
  - induction prev as [|y rest IH]; intros Hnot.
    + unfold decreaseQty. cbn. by rewrite String.eqb_refl.
    + rewrite <- app_comm_cons, decreaseQty_cons.
      destruct (String.eqb_spec y id) as [->|Hy]; [exfalso; apply Hnot; left|].
      f_equal. apply IH. intros Hin. apply Hnot. by right.
Qed.

(** ** Categories and products of the admin panel *)

Lemma NoDup_fmap_member_inj {A B} (f : A → B) (l : list A) (x y : A) :
  NoDup (f <$> l) → x ∈ l → y ∈ l → f x = f y → x = y.
Proof.
  induction l as [|z l IH]; intros Hnd Hx Hy Heq.
  - by apply elem_of_nil in Hx.
  - rewrite fmap_cons in Hnd. apply NoDup_cons in Hnd as [Hz Hnd].
    apply elem_of_cons in Hx as [->|Hx]; apply elem_of_cons in Hy as [->|Hy].
    + done.
    + exfalso. apply Hz. rewrite Heq. by apply list_elem_of_fmap_2.
    + exfalso. apply Hz. rewrite <- Heq. by apply list_elem_of_fmap_2.
    + by apply IH.
Qed.

Lemma filter_sublist {A} (f : A → bool) (l : list A) : sublist (List.filter f l) l.
Proof.
  induction l as [|x l IH]; [done|]. cbn.
  destruct (f x); [by apply sublist_skip | by apply sublist_cons].
Qed.

Lemma elem_of_list_filter_bool {A} (f : A → bool) (l : list A) (x : A) :
  x ∈ List.filter f l ↔ x ∈ l ∧ f x = true.
Proof. by rewrite !list_elem_of_In, filter_In. Qed.

(** X18. [removeCategory] keeps the view consistent.  If category ids are
    unique, the chip selection is "All" or an existing category and the
    category preselected for new products is empty or an existing
    category, then all of this still holds afterwards, whatever the id
    passed and whatever the remote reply; and the list afterwards is the
    list before with some entries left out, in the same order. *)
Theorem removeCategory_keeps_view_consistent
    (remote : option (option string)) (st : storefront) (categoryId : string) :
  NoDup (cat_id <$> categories st) →
  selection_valid st →
  NoDup (cat_id <$> categories (removeCategory remote st categoryId).1) ∧
  selection_valid (removeCategory remote st categoryId).1 ∧
  sublist (categories (removeCategory remote st categoryId).1) (categories st).
Proof.
  intros Hnd [Hsel Hnew]. unfold removeCategory.
  destruct (List.find _ (categories st)) as [category|] eqn:Hfind; [|done].
  destruct (existsb _ (products st)); [done|].
  destruct remote as [[m|]|]; [done| |];
    cbn [fst categories selectedCategory newProductCategory];
    (apply find_some_elem_of in Hfind as [Hin Hid]; apply String.eqb_eq in Hid;
     set (remaining := List.filter
            (fun item => negb (String.eqb (cat_id item) categoryId)) (categories st));
     assert (sublist remaining (categories st)) as Hsub by apply filter_sublist;
     assert (∀ c, c ∈ categories st → cat_name c ≠ cat_name category → c ∈ remaining)
       as Hkeep by
       (intros c Hc Hname; apply elem_of_list_filter_bool; split; [done|];
        apply negb_true_iff, String.eqb_neq; intros Hcid; apply Hname; f_equal;
        apply (NoDup_fmap_member_inj cat_id (categories st)); congruence);
     split; [eapply sublist_NoDup; [exact Hnd | by apply fmap_sublist]|];
     split; [|done]; split; unfold selection_valid, names_category;
       cbn [categories selectedCategory newProductCategory]).
  - destruct (String.eqb_spec (selectedCategory st) (cat_name category)); [by left|].
    destruct Hsel as [?|(c & Hc & Hn)]; [by left|]. right. exists c. split; [|done].
    apply Hkeep; congruence.
  - destruct (String.eqb_spec (newProductCategory st) (cat_name category)).
    + fold remaining. destruct remaining as [|first rest] eqn:E; [by left|].
      right. exists first. split; [left | done].
    + destruct Hnew as [?|(c & Hc & Hn)]; [by left|]. right. exists c. split; [|done].
      apply Hkeep; congruence.
  - destruct (String.eqb_spec (selectedCategory st) (cat_name category)); [by left|].
    destruct Hsel as [?|(c & Hc & Hn)]; [by left|]. right. exists c. split; [|done].
    apply Hkeep; congruence.
  - destruct (String.eqb_spec (newProductCategory st) (cat_name category)).
    + fold remaining. destruct remaining as [|first rest] eqn:E; [by left|].
      right. exists first. split; [left | done].
    + destruct Hnew as [?|(c & Hc & Hn)]; [by left|]. right. exists c. split; [|done].
      apply Hkeep; congruence.
Qed.

Lemma removeCategory_keeps_view_consistent_witness :
  NoDup (cat_id <$> categories Sample.shop) ∧ selection_valid Sample.shop ∧
  selection_valid (removeCategory None Sample.shop "c2").1.
Proof.
  assert (NoDup (cat_id <$> categories Sample.shop)) as Hnd by compute_done.
  assert (selection_valid Sample.shop) as Hsel.
  { split; [by left|]. right. exists Sample.sneakers. split; [left | reflexivity]. }
  split; [exact Hnd|]. split; [exact Hsel|].
  apply (removeCategory_keeps_view_consistent None Sample.shop "c2" Hnd Hsel).
Defined.

(** X19. Removing the product that blocks a category unblocks it: when
    every product naming the category carries the id [productId], then
    after [removeProduct productId] has gone through, [removeCategory]
    goes through too (for replies without an error) and no category with
    that id is left. *)
Theorem removeProduct_unblocks_removeCategory
    (remote remote' : option (option string)) (st : storefront)
    (categoryId productId : string) (category : client_category) :
  List.find (fun item => String.eqb (cat_id item) categoryId) (categories st)
    = Some category →
  (∀ product, product ∈ products st →
              get product "category" = JString (cat_name category) →
              get product "id" = JString productId) →
  (∀ m, remote ≠ Some (Some m)) →
  (∀ m, remote' ≠ Some (Some m)) →
  adminMessage (removeCategory remote' (removeProduct remote st productId).1 categoryId).1
    = "Category removed." ∧
  (∀ c, c ∈ categories
              (removeCategory remote' (removeProduct remote st productId).1 categoryId).1 →
        cat_id c ≠ categoryId).
Proof.
  intros Hfind Honly Hok Hok'.
  assert (∃ st1, (removeProduct remote st productId).1 = st1 ∧
                 categories st1 = categories st ∧
                 products st1 = List.filter
                   (fun product => negb (strict_eq_string (get product "id") productId))
                   (products st)) as (st1 & -> & Hcats & Hprods).
  { unfold removeProduct. destruct remote as [[m|]|]; [by destruct (Hok m)| |];
      eexists; repeat split. }
  unfold removeCategory. rewrite Hcats, Hfind.
  assert (existsb (fun product =>
                     strict_eq_string (get product "category") (cat_name category))
                  (products st1) = false) as ->.
  { apply not_true_iff_false. intros (product & Hin & Hcat)%existsb_exists.
    rewrite Hprods in Hin. apply filter_In in Hin as [Hin Hid].
    apply strict_eq_string_true in Hcat. apply list_elem_of_In in Hin.
    rewrite (Honly product Hin Hcat) in Hid. cbn in Hid.
    by rewrite String.eqb_refl in Hid. }
  destruct remote' as [[m|]|]; [by destruct (Hok' m)| |];
    cbn [fst adminMessage categories]; (split; [done|]);
    intros c [_ Hc]%elem_of_list_filter_bool;
    by apply negb_true_iff, String.eqb_neq in Hc.
Qed.

Lemma removeProduct_unblocks_removeCategory_witness :
  List.find (fun item => String.eqb (cat_id item) "c1") (categories Sample.shop)
    = Some Sample.sneakers ∧
  adminMessage (removeCategory None (removeProduct None Sample.shop "1").1 "c1").1
    = "Category removed.".
Proof.
  split; [reflexivity|].
  apply (removeProduct_unblocks_removeCategory None None Sample.shop "c1" "1"
           Sample.sneakers eq_refl); [|done..].
  intros product Hin _. apply list_elem_of_singleton in Hin. by subst.
Defined.

(** ** Order statuses *)

Lemma normalizeOrder_status (rt : runtime) (order : object) (fallback : option object) :
  valid_status (normalizeOrder rt order fallback).
Proof.
  unfold valid_status. cbn [normalizeOrder view_status].
  destruct (includes ORDER_STATUSES (get order "status")) eqn:E.
  - by apply includes_spec in E.
  - exists "Placed". split; [done | left].
Qed.

Lemma updateOrderStatus_step (rt : runtime) (remote : option (option string))
    (st : order_board) (orderId nextStatus : jsval) :
  Forall valid_status (orders st) →
  Forall valid_status (orders (updateOrderStatus rt remote st orderId nextStatus).1).
Proof.
  intros Hall. unfold updateOrderStatus.
  destruct (includes ORDER_STATUSES nextStatus) eqn:E; [|done].
  apply includes_spec in E as (s & -> & Hs).
  destruct remote as [[m|]|]; [done| |]; cbn [negb fst orders];
    rewrite Forall_forall in *; intros o (o' & -> & Ho')%list_elem_of_fmap;
    (destruct (String.eqb (view_id o') (ToString rt orderId)); [by exists s | by apply Hall]).
Qed.

(** X20. The order list of the admin view only ever holds valid statuses:
    built from any fetched rows by [normalizeOrder] and then put through
    any sequence of [updateOrderStatus] calls, with any arguments and any
    remote replies, every order has one of the five statuses.  A call
    never adds, drops, reorders or renames an order, and a call with a
    status outside the five changes nothing and sends nothing. *)
Theorem order_board_statuses_stay_valid
    (rt : runtime) (rows : list object) (fallback : option object)
    (updates : list (option (option string) * jsval * jsval)) :
  Forall valid_status
    (orders (foldl (fun board u =>
                      (updateOrderStatus rt u.1.1 board u.1.2 u.2).1)
                   (mkBoard ((fun row => normalizeOrder rt row fallback) <$> rows) "")
                   updates)) ∧
  (∀ remote st orderId nextStatus,
     view_id <$> orders (updateOrderStatus rt remote st orderId nextStatus).1
     = view_id <$> orders st) ∧
  (∀ remote st orderId nextStatus,
     includes ORDER_STATUSES nextStatus = false →
     updateOrderStatus rt remote st orderId nextStatus = (st, [])).
Proof.
  split; [|split].
  - assert (Forall valid_status
              (orders (mkBoard ((fun row => normalizeOrder rt row fallback) <$> rows) "")))
      as Hinit.
    { cbn. apply Forall_fmap, Forall_forall. intros row _. apply normalizeOrder_status. }
    revert Hinit. generalize (mkBoard ((fun row => normalizeOrder rt row fallback) <$> rows) "").
    induction updates as [|u updates IH]; intros board Hboard; [done|].
    cbn [foldl]. apply IH. by apply updateOrderStatus_step.
  - intros remote st orderId nextStatus. unfold updateOrderStatus.
    destruct (includes ORDER_STATUSES nextStatus); [|done].
    destruct remote as [[m|]|]; [done| |]; cbn [negb fst orders];
      rewrite <- list_fmap_compose; apply list_fmap_ext; intros ? o _; cbn;
      by destruct (String.eqb (view_id o) (ToString rt orderId)).
  - intros remote st orderId nextStatus E. unfold updateOrderStatus. by rewrite E.
Qed.

(** ** Adding a category *)

Lemma insert_by_perm {A} (cmp : A → A → Z) (x : A) (l : list A) :
  insert_by cmp x l ≡ₚ x :: l.
Proof.
  induction l as [|y l IH]; [done|]. cbn.
  destruct (cmp x y <=? 0)%Z; [done|]. rewrite IH. apply Permutation_swap.
Qed.

Lemma sort_by_perm {A} (cmp : A → A → Z) (l : list A) : sort_by cmp l ≡ₚ l.
Proof.
  unfold sort_by. induction l as [|x l IH]; [done|].
  cbn. rewrite insert_by_perm. by constructor.
Qed.

Lemma insert_by_sorted {A} (cmp : A → A → Z) (x : A) (l : list A) :
  (∀ a b, (cmp a b ≤ 0)%Z ∨ (cmp b a ≤ 0)%Z) →
  (∀ a b c, (cmp a b ≤ 0)%Z → (cmp b c ≤ 0)%Z → (cmp a c ≤ 0)%Z) →
  StronglySorted (fun a b => (cmp a b ≤ 0)%Z) l →
  StronglySorted (fun a b => (cmp a b ≤ 0)%Z) (insert_by cmp x l).
Proof.
  intros Htotal Htrans. induction 1 as [|y l Hsorted IH Hall]; cbn.
  - by repeat constructor.
  - destruct (Z.leb_spec (cmp x y) 0) as [Hle|Hgt].
    + constructor; [by constructor|]. constructor; [done|].
      eapply Forall_impl; [exact Hall|]. intros z Hz. by apply (Htrans x y z).
    + constructor; [done|]. rewrite insert_by_perm. constructor; [|done].
      destruct (Htotal x y); [lia | done].
Qed.

Lemma existsb_lowercase_false (tx : text_runtime) (name : string)
    (l : list client_category) :
  existsb (fun category => String.eqb (lowercase tx (cat_name category)) (lowercase tx name))
          l = false ↔
  ∀ c, c ∈ l → lowercase tx (cat_name c) ≠ lowercase tx name.
Proof.
  rewrite <- not_true_iff_false, existsb_exists. split.
  - intros Hno c Hc Heq. apply Hno. exists c.
    split; [by apply list_elem_of_In | by apply String.eqb_eq].
  - intros Hno (c & Hc & Heq). apply String.eqb_eq in Heq.
    by apply (Hno c); [apply list_elem_of_In|].
Qed.

(** X21. Without a backend, [addCategory] keeps category names distinct
    up to letter case: from a list with pairwise different lower-cased
    names it yields such a list again.  It either leaves the list as it
    is, or adds exactly the one category carrying the trimmed name,
    preselects that name for new products and clears the input; it sends
    no request. *)
Theorem addCategory_keeps_names_distinct
    (rt : runtime) (tx : text_runtime) (f : admin_form) :
  NoDup ((fun c => lowercase tx (cat_name c)) <$> categories (shop f)) →
  NoDup ((fun c => lowercase tx (cat_name c))
           <$> categories (shop (addCategory rt tx None f).1)) ∧
  (addCategory rt tx None f).2 = [] ∧
  (categories (shop (addCategory rt tx None f).1) = categories (shop f) ∨
   (categories (shop (addCategory rt tx None f).1)
      ≡ₚ categories (shop f)
           ++ [mkClientCategory ("cat-" ++ now tx) (trim tx (newCategoryName f))] ∧
    newProductCategory (shop (addCategory rt tx None f).1) = trim tx (newCategoryName f) ∧
    newCategoryName (addCategory rt tx None f).1 = "")).
Proof.
  intros Hnd. unfold addCategory.
  destruct (String.eqb (trim tx (newCategoryName f)) ""); [by auto|].
  destruct (existsb _ (categories (shop f))) eqn:E; [by auto|].
  cbn [fst snd category_added shop categories newProductCategory newCategoryName].
  split; [|split; [done|right; split; [apply sort_by_perm | done]]].
  rewrite sort_by_perm, fmap_app. cbn. apply NoDup_app. split; [done|].
  split; [|apply NoDup_singleton].
  intros x (c & -> & Hc)%list_elem_of_fmap Hx%list_elem_of_singleton.
  by apply (proj1 (existsb_lowercase_false tx _ _) E c).
Qed.

Lemma addCategory_keeps_names_distinct_witness :
  NoDup ((fun c => lowercase Sample.plain_text (cat_name c)) <$> categories Sample.shop) ∧
  NoDup ((fun c => lowercase Sample.plain_text (cat_name c))
           <$> categories
                 (shop (addCategory Sample.blind_runtime Sample.plain_text None
                          (mkForm Sample.shop "Hats")).1)).
Proof.
  assert (NoDup ((fun c => lowercase Sample.plain_text (cat_name c))
                   <$> categories Sample.shop)) as Hnd by compute_done.
  split; [exact Hnd|].
  apply (addCategory_keeps_names_distinct Sample.blind_runtime Sample.plain_text
           (mkForm Sample.shop "Hats") Hnd).
Defined.

(** X22. The insert request of [addCategory]: at most one is sent, it
    carries the trimmed name, and it is sent only for a name that is not
    blank and differs, lower-cased, from every listed name.  When the
    backend rejects the insert the category list stays as it was. *)
Theorem addCategory_requests
    (rt : runtime) (tx : text_runtime) (remote : option insert_reply) (f : admin_form) :
  ((addCategory rt tx remote f).2 = [] ∨
   ((addCategory rt tx remote f).2 = [InsertCategory (trim tx (newCategoryName f))] ∧
    trim tx (newCategoryName f) ≠ "" ∧
    ∀ c, c ∈ categories (shop f) →
         lowercase tx (cat_name c) ≠ lowercase tx (trim tx (newCategoryName f)))) ∧
  (∀ code message, remote = Some (InsertFailed code message) →
     categories (shop (addCategory rt tx remote f).1) = categories (shop f)).
Proof.
  unfold addCategory.
  destruct (String.eqb_spec (trim tx (newCategoryName f)) ""); [by auto|].
  destruct (existsb _ (categories (shop f))) eqn:E; [by auto|].
  pose proof (proj1 (existsb_lowercase_false tx _ _) E) as Hfresh.
  destruct remote as [[data|code message]|]; cbn [fst snd]; split; auto; try done.
Qed.

(** X23. When the comparator orders names consistently (any two names are
    comparable, and the order is transitive), the category list that
    [addCategory] leaves is either the list it found or sorted by name. *)
Theorem addCategory_sorts_by_name
    (rt : runtime) (tx : text_runtime) (remote : option insert_reply) (f : admin_form) :
  (∀ a b, (localeCompare tx a b ≤ 0)%Z ∨ (localeCompare tx b a ≤ 0)%Z) →
  (∀ a b c, (localeCompare tx a b ≤ 0)%Z → (localeCompare tx b c ≤ 0)%Z →
            (localeCompare tx a c ≤ 0)%Z) →
  categories (shop (addCategory rt tx remote f).1) = categories (shop f) ∨
  StronglySorted (fun a b => (by_name tx a b ≤ 0)%Z)
                 (categories (shop (addCategory rt tx remote f).1)).
Proof.
  intros Htotal Htrans.
  assert (∀ l, StronglySorted (fun a b => (by_name tx a b ≤ 0)%Z) (sort_by (by_name tx) l))
    as Hsorted.
  { unfold sort_by. induction l as [|x l IH]; [constructor|].
    cbn. apply insert_by_sorted; [| |done]; unfold by_name; eauto. }
  unfold addCategory.
  destruct (String.eqb (trim tx (newCategoryName f)) ""); [by left|].
  destruct (existsb _ (categories (shop f))); [by left|].
  destruct remote as [[data|code message]|]; [right|by left|right]; apply Hsorted.
Qed.

Lemma addCategory_sorts_by_name_witness :
  (∀ a b, (localeCompare Sample.plain_text a b ≤ 0)%Z ∨
          (localeCompare Sample.plain_text b a ≤ 0)%Z) ∧
  StronglySorted (fun a b => (by_name Sample.plain_text a b ≤ 0)%Z)
    (categories
       (shop (addCategory Sample.blind_runtime Sample.plain_text None
                (mkForm Sample.shop "Hats")).1)).
Proof.
  assert (∀ a b, (localeCompare Sample.plain_text a b ≤ 0)%Z ∨
                 (localeCompare Sample.plain_text b a ≤ 0)%Z) as Htotal
    by (intros a b; cbn; lia).
  split; [exact Htotal|].
  destruct (addCategory_sorts_by_name Sample.blind_runtime Sample.plain_text None
              (mkForm Sample.shop "Hats") Htotal) as [H|H].
  - intros a b c. cbn. lia.
  - discriminate H.
  - exact H.
Defined.

(** ** Adding a product *)

Lemma valid_price (price : number) :
  isFinite price = true → SFleb price pos_zero = false →
  ∃ m e, price = S754_finite false m e.
Proof. destruct price as [[]|[]| |[] m e]; try done. intros _ _. by eexists _, _. Qed.

Lemma product_row_fields (name category description : string) (price : number)
    (image : jsval) :
  get (product_row name category description price image) "name" = JString name ∧
  get (product_row name category description price image) "category" = JString category ∧
  get (product_row name category description price image) "description"
    = JString description ∧
  get (product_row name category description price image) "price" = JNumber price ∧
  product_row name category description price image !! "id" = None.
Proof. unfold get, product_row. repeat split; by simplify_map_eq. Qed.

Lemma keep_lower_alnum_idempotent (s : string) :
  keep_lower_alnum (keep_lower_alnum s) = keep_lower_alnum s.
Proof.
  induction s as [|a s IH]; [done|]. cbn.
  destruct (is_lower_alnum a) eqn:E; [|done]. cbn. by rewrite E, IH.
Qed.

Lemma keep_lower_alnum_length (s : string) :
  (String.length (keep_lower_alnum s) ≤ String.length s)%nat.
Proof.
  induction s as [|a s IH]; [done|]. cbn. destruct (is_lower_alnum a); cbn; lia.
Qed.

Lemma lower_alnum_get (s : string) (i : nat) (a : ascii) :
  keep_lower_alnum s = s → String.get i s = Some a → is_lower_alnum a = true.
Proof.
  revert i. induction s as [|b s IH]; intros i H Hget; [by destruct i|].
  cbn in H. destruct (is_lower_alnum b) eqn:E.
  - injection H as H. destruct i as [|i]; cbn in Hget; [congruence | by apply (IH i)].
  - exfalso. pose proof (keep_lower_alnum_length s) as Hlen.
    rewrite H in Hlen. cbn in Hlen. lia.
Qed.

Lemma safeExtension_clean (tx : text_runtime) (fileName : string) :
  safeExtension tx fileName ≠ "" ∧
  keep_lower_alnum (safeExtension tx fileName) = safeExtension tx fileName.
Proof.
  unfold safeExtension.
  generalize (or_jpg (lowercase tx (last_piece "" fileName))). intros ext.
  unfold or_jpg.
  destruct (String.eqb_spec (keep_lower_alnum ext) "") as [_|Hne]; [done|].
  split; [done | apply keep_lower_alnum_idempotent].
Qed.

(** X29. [addProduct] validates before it acts.  Every row it sends to
    the backend carries the trimmed name and description and the chosen
    category, none of them empty, and a price that is a finite number
    above zero; a call adds at most one product, at the front of the list;
    without a backend nothing is sent, a product added locally has such a
    price and the id "p-" followed by the clock, and a form with an image
    file adds nothing. *)
Theorem addProduct_validates
    (rt : runtime) (tx : text_runtime) (hasSupabaseConfig supabase : bool)
    (env : option string) (random_tag : string) (upload publicUrl : option string)
    (insert : insert_reply) (f : product_form) :
  (∀ row, InsertProduct row ∈ (addProduct rt tx hasSupabaseConfig supabase env random_tag
                                 upload publicUrl insert f).2 →
     get row "name" = JString (trim tx (newProductName f)) ∧
     trim tx (newProductName f) ≠ "" ∧
     get row "category" = JString (newProductCategory (form_shop f)) ∧
     newProductCategory (form_shop f) ≠ "" ∧
     get row "description" = JString (trim tx (newProductDescription f)) ∧
     trim tx (newProductDescription f) ≠ "" ∧
     ∃ m e, get row "price" = JNumber (S754_finite false m e)) ∧
  (products (form_shop (addProduct rt tx hasSupabaseConfig supabase env random_tag
                          upload publicUrl insert f).1) = products (form_shop f) ∨
   ∃ p, products (form_shop (addProduct rt tx hasSupabaseConfig supabase env random_tag
                               upload publicUrl insert f).1) = p :: products (form_shop f)) ∧
  (hasSupabaseConfig && supabase = false →
   (addProduct rt tx hasSupabaseConfig supabase env random_tag
      upload publicUrl insert f).2 = [] ∧
   (newProductImageFile f ≠ None →
    products (form_shop (addProduct rt tx hasSupabaseConfig supabase env random_tag
                           upload publicUrl insert f).1) = products (form_shop f)) ∧
   (∀ p, products (form_shop (addProduct rt tx hasSupabaseConfig supabase env random_tag
                                upload publicUrl insert f).1) = p :: products (form_shop f) →
         get p "id" = JString ("p-" ++ now tx) ∧
         ∃ m e, get p "price" = JNumber (S754_finite false m e))).
Proof.
  unfold addProduct.
  destruct (String.eqb_spec (trim tx (newProductName f)) "") as [|Hname];
    [cbn; split; [by intros ? ?%elem_of_nil|]; split; [by left|];
     intros _; split; [done|]; split; [done|];
     intros p Hp; exfalso; by apply (f_equal List.length) in Hp; cbn in Hp; lia|].
  destruct (String.eqb_spec (newProductCategory (form_shop f)) "") as [|Hcat];
    [cbn; split; [by intros ? ?%elem_of_nil|]; split; [by left|];
     intros _; split; [done|]; split; [done|];
     intros p Hp; exfalso; by apply (f_equal List.length) in Hp; cbn in Hp; lia|].
  destruct (String.eqb_spec (trim tx (newProductDescription f)) "") as [|Hdesc];
    [cbn; split; [by intros ? ?%elem_of_nil|]; split; [by left|];
     intros _; split; [done|]; split; [done|];
     intros p Hp; exfalso; by apply (f_equal List.length) in Hp; cbn in Hp; lia|].
  destruct (isFinite (ToNumber rt (JString (newProductPrice f)))) eqn:Hfin;
    [|cbn; split; [by intros ? ?%elem_of_nil|]; split; [by left|];
      intros _; split; [done|]; split; [done|];
      intros p Hp; exfalso; by apply (f_equal List.length) in Hp; cbn in Hp; lia].
  destruct (SFleb (ToNumber rt (JString (newProductPrice f))) pos_zero) eqn:Hpos;
    [cbn; split; [by intros ? ?%elem_of_nil|]; split; [by left|];
     intros _; split; [done|]; split; [done|];
     intros p Hp; exfalso; by apply (f_equal List.length) in Hp; cbn in Hp; lia|].
  cbn [orb negb].
  destruct (valid_price _ Hfin Hpos) as (m & e & Hprice).
  assert (∀ image row,
            row = product_row (trim tx (newProductName f)) (newProductCategory (form_shop f))
                    (trim tx (newProductDescription f))
                    (ToNumber rt (JString (newProductPrice f))) image →
            get row "name" = JString (trim tx (newProductName f)) ∧
            trim tx (newProductName f) ≠ "" ∧
            get row "category" = JString (newProductCategory (form_shop f)) ∧
            newProductCategory (form_shop f) ≠ "" ∧
            get row "description" = JString (trim tx (newProductDescription f)) ∧
            trim tx (newProductDescription f) ≠ "" ∧
            ∃ m e, get row "price" = JNumber (S754_finite false m e)) as Hrow.
  { intros image row ->.
    destruct (product_row_fields (trim tx (newProductName f))
                (newProductCategory (form_shop f)) (trim tx (newProductDescription f))
                (ToNumber rt (JString (newProductPrice f))) image) as (H1 & H2 & H3 & H4 & _).
    repeat split; try done. exists m, e. by rewrite H4, Hprice. }
  destruct (newProductImageFile f) as [file|] eqn:Hfile.
  - destruct hasSupabaseConfig, supabase; cbn [negb orb andb];
      try (split; [by intros ? ?%elem_of_nil|]; split; [by left|];
           intros _; split; [done|]; split; [done|];
           intros p Hp; exfalso; by apply (f_equal List.length) in Hp; cbn in Hp; lia).
    split; [|split; [|done]].
    + intros row Hin. destruct upload as [msg|].
      * apply list_elem_of_singleton in Hin. discriminate Hin.
      * destruct insert as [data|code msg]; cbn [snd] in Hin;
          apply elem_of_app in Hin as [Hin|Hin];
          apply list_elem_of_singleton in Hin; try discriminate Hin;
          injection Hin as ->; by eapply Hrow.
    + destruct upload as [msg|]; [by left|].
      destruct insert as [data|code msg]; [right; by eexists | by left].
  - destruct (hasSupabaseConfig && supabase) eqn:Hremote.
    + split; [|split; [|done]].
      * intros row Hin. destruct insert as [data|code msg]; cbn [snd] in Hin;
          apply list_elem_of_singleton in Hin; injection Hin as ->; by eapply Hrow.
      * destruct insert as [data|code msg]; [right; by eexists | by left].
    + split; [by intros ? ?%elem_of_nil|]. split; [right; by eexists|].
      intros _. split; [done|]. split; [done|].
      cbn [fst product_added form_shop products]. intros p [= <-].
      destruct (product_row_fields (trim tx (newProductName f))
                  (newProductCategory (form_shop f)) (trim tx (newProductDescription f))
                  (ToNumber rt (JString (newProductPrice f))) JNull) as (_ & _ & _ & H4 & _).
      unfold normalizeProduct, get in *. split.
      * rewrite lookup_insert_ne by done. rewrite lookup_insert_eq.
        cbn. unfold get. by rewrite lookup_insert_eq.
      * rewrite lookup_insert_eq. exists m, e. f_equal.
        rewrite lookup_insert_ne by done.
        destruct (product_row _ _ _ _ _ !! "price") as [v|]; [|done].
        rewrite H4, Hprice. done.
Qed.

(** X30. An image is uploaded only with a file chosen and the backend
    configured, only into the configured bucket, and under a path of the
    form products/<clock>-<random>.<ext> whose extension is never empty
    and consists of lower-case ASCII letters and digits only, whatever
    the file was called. *)
Theorem addProduct_image_path
    (rt : runtime) (tx : text_runtime) (hasSupabaseConfig supabase : bool)
    (env : option string) (random_tag : string) (upload publicUrl : option string)
    (insert : insert_reply) (f : product_form) (bucket path : string) :
  UploadImage bucket path ∈ (addProduct rt tx hasSupabaseConfig supabase env random_tag
                               upload publicUrl insert f).2 →
  hasSupabaseConfig = true ∧ supabase = true ∧
  bucket = PRODUCT_IMAGE_BUCKET env ∧
  ∃ file, newProductImageFile f = Some file ∧
          path = "products/" ++ now tx ++ "-" ++ random_tag ++ "."
                   ++ safeExtension tx file ∧
          safeExtension tx file ≠ "" ∧
          ∀ i a, String.get i (safeExtension tx file) = Some a → is_lower_alnum a = true.
Proof.
  unfold addProduct.
  destruct (_ || _ || _ || _ || _); [by intros ?%elem_of_nil|].
  destruct (newProductImageFile f) as [file|] eqn:Hfile.
  - destruct hasSupabaseConfig, supabase; cbn [negb orb andb];
      try by intros ?%elem_of_nil.
    intros Hin.
    assert (UploadImage bucket path
            = UploadImage (PRODUCT_IMAGE_BUCKET env)
                ("products/" ++ now tx ++ "-" ++ random_tag ++ "."
                   ++ safeExtension tx file)) as [= -> ->].
    { destruct upload as [msg|]; [by apply list_elem_of_singleton in Hin|].
      destruct insert as [data|code msg]; cbn [snd] in Hin;
        apply elem_of_app in Hin as [Hin|Hin];
        apply list_elem_of_singleton in Hin; done. }
    repeat split. exists file. repeat split.
    + apply safeExtension_clean.
    + intros i a. apply lower_alnum_get, safeExtension_clean.
  - destruct (hasSupabaseConfig && supabase);
      [|by intros ?%elem_of_nil].
    destruct insert as [data|code msg]; cbn [snd];
      by intros ?%list_elem_of_singleton.
Qed.

Lemma addProduct_image_path_witness :
  UploadImage "product-images" "products/1700000000000-k3.jpeg"
    ∈ (addProduct Sample.unit_price_runtime Sample.plain_text true true None "k3"
         (Some "denied") None (InsertFailed "" "")
         (mkProductForm Sample.shop "Cap" "1" "A cap" (Some "shoe.final.jpeg!"))).2 ∧
  PRODUCT_IMAGE_BUCKET None = "product-images".
Proof.
  assert (UploadImage "product-images" "products/1700000000000-k3.jpeg"
            ∈ (addProduct Sample.unit_price_runtime Sample.plain_text true true None "k3"
                 (Some "denied") None (InsertFailed "" "")
                 (mkProductForm Sample.shop "Cap" "1" "A cap" (Some "shoe.final.jpeg!"))).2)
    as Hin by (vm_compute; left).
  split; [exact Hin|].
  destruct (addProduct_image_path _ _ _ _ _ _ _ _ _ _ _ _ Hin) as (_ & _ & H & _).
  symmetry. exact H.
Defined.

(* ===================================================================== *)
(** * Part VIII: the phone sign-in                                        *)
(* ===================================================================== *)

Import Otp.











